(** * The SQLite connector of parsons: a shallow embedding

    Sources: [parsons/databases/sqlite/sqlite.py] (class [SQLite]) and
    [parsons/databases/sqlite/sqlite_create_table.py] (class
    [SQLiteCreateTable]).

    The connector is glue around Python's [sqlite3] module, so the embedding
    is effectful: a world holds the committed content of every database file,
    the connection objects (shared, addressed by handle), the temp-file
    factory and a trace of what was done; methods are computations in a state
    and exception monad over that world.  The meaning of one SQL statement is
    the database engine's business and is a parameter of the development.

    Python [str] values are modelled as [string], read as sequences of code
    points below 256.  Field values are [None], booleans, integers and
    strings; other field types (floats, bytes, dates) are outside the model.
    Calls to [print] are diagnostics on standard output and are not part of
    the trace; log records are. *)

From Stdlib Require Import List String Ascii Bool Arith ZArith Lia.
From Stdlib Require Import DecimalString.
Import ListNotations.
Local Open Scope list_scope.
Local Open Scope string_scope.

Set Implicit Arguments.

(** ** Python strings *)

Module PyStr.

(** [str.isspace] on one code point below 256: the ASCII whitespace
    U+0009..U+000D, the separators U+001C..U+001F, the space, and the
    Latin-1 characters U+0085 and U+00A0. *)
Definition isspace (c : ascii) : bool :=
  let n := nat_of_ascii c in
  (((9 <=? n) && (n <=? 13)) || ((28 <=? n) && (n <=? 32))
   || (n =? 133) || (n =? 160))%nat.

(** [s.lstrip()] *)
Fixpoint lstrip (s : string) : string :=
  match s with
  | EmptyString => EmptyString
  | String c r => if isspace c then lstrip r else s
  end.

(** [s.rstrip()] *)
Fixpoint rstrip (s : string) : string :=
  match s with
  | EmptyString => EmptyString
  | String c r =>
      match rstrip r with
      | EmptyString => if isspace c then EmptyString else String c EmptyString
      | r' => String c r'
      end
  end.

(** [s.strip()] *)
Definition strip (s : string) : string := rstrip (lstrip s).

(** [s.split(sep)] for a one-character separator: never empty, and
    [n] occurrences of the separator give [n + 1] fragments. *)
Fixpoint split (sep : ascii) (s : string) : list string :=
  match s with
  | EmptyString => [EmptyString]
  | String c r =>
      if Ascii.eqb c sep then EmptyString :: split sep r
      else match split sep r with
           | [] => [String c EmptyString]
           | f :: fs => String c f :: fs
           end
  end.

(** [sep.join(parts)] *)
Fixpoint join (sep : string) (parts : list string) : string :=
  match parts with
  | [] => EmptyString
  | [p] => p
  | p :: ps => p ++ sep ++ join sep ps
  end.

(** [c in s] for a character *)
Fixpoint contains (c : ascii) (s : string) : bool :=
  match s with
  | EmptyString => false
  | String d r => Ascii.eqb d c || contains c r
  end.

(** [len(s) != 0] *)
Definition nonempty (s : string) : bool :=
  match s with EmptyString => false | _ => true end.

(** [str(n)] for a non-negative integer *)
Definition of_nat (n : nat) : string :=
  NilEmpty.string_of_uint (Nat.to_uint n).

(** [str(z)] for an integer *)
Definition of_Z (z : Z) : string :=
  match z with
  | Z0 => "0"
  | Zpos p => NilEmpty.string_of_uint (Pos.to_uint p)
  | Zneg p => "-" ++ NilEmpty.string_of_uint (Pos.to_uint p)
  end.

Definition startswith (p s : string) : bool := String.prefix p s.

(** the line feed, as a one-character string *)
Definition nl : string := String (ascii_of_nat 10) EmptyString.

(** the last character, when there is one *)
Fixpoint last (s : string) : option ascii :=
  match s with
  | EmptyString => None
  | String c EmptyString => Some c
  | String _ r => last r
  end.

(** every character is whitespace (so is the empty string) *)
Fixpoint all_space (s : string) : bool :=
  match s with
  | EmptyString => true
  | String c r => isspace c && all_space r
  end.

End PyStr.

(** ** Field values, rows and the tabular container *)

Inductive value : Type :=
| VNone
| VBool (b : bool)
| VInt (z : Z)
| VStr (s : string).

Definition row : Type := list value.

Module PyVal.

Definition dquote : ascii := ascii_of_nat 34.

Definition hex_digit (n : nat) : ascii :=
  ascii_of_nat (if (n <? 10)%nat then 48 + n else 87 + n).

(** Code points below 256 that [repr] writes as they are when they are not
    the quote or the backslash: the printable ones. *)
Definition isprintable (c : ascii) : bool :=
  let n := nat_of_ascii c in
  (((32 <=? n) && (n <? 127)) || ((161 <=? n) && negb (n =? 173)))%nat.

Definition repr_char (quote : ascii) (c : ascii) : string :=
  let n := nat_of_ascii c in
  if Ascii.eqb c quote || Ascii.eqb c "\"%char then String "\" (String c "")
  else if (n =? 9)%nat then "\t"
  else if (n =? 10)%nat then "\n"
  else if (n =? 13)%nat then "\r"
  else if isprintable c then String c ""
  else String "\" (String "x" (String (hex_digit (n / 16))
                                 (String (hex_digit (n mod 16)) ""))).

Fixpoint repr_body (quote : ascii) (s : string) : string :=
  match s with
  | EmptyString => EmptyString
  | String c r => repr_char quote c ++ repr_body quote r
  end.

(** [repr(s)] of a string: single quotes, unless the text has a single
    quote and no double quote. *)
Definition repr_str (s : string) : string :=
  let quote :=
    if PyStr.contains "'" s && negb (PyStr.contains dquote s)
    then dquote else "'"%char in
  String quote (repr_body quote s ++ String quote "").

(** [str(v)], which is also what an f-string [{v}] renders. *)
Definition str (v : value) : string :=
  match v with
  | VNone => "None"
  | VBool true => "True"
  | VBool false => "False"
  | VInt z => PyStr.of_Z z
  | VStr s => s
  end.

(** [repr(v)] *)
Definition repr (v : value) : string :=
  match v with
  | VStr s => repr_str s
  | _ => str v
  end.

(** [str(t)] of a tuple: the [repr] of its fields, with the trailing comma
    of the one-field tuple. *)
Definition str_tuple (t : row) : string :=
  match t with
  | [v] => "(" ++ repr v ++ ",)"
  | _ => "(" ++ PyStr.join ", " (map repr t) ++ ")"
  end.

(** [v == s] for a string [s] *)
Definition eq_str (v : value) (s : string) : bool :=
  match v with
  | VStr t => String.eqb t s
  | _ => false
  end.

End PyVal.

(** The tabular container (parsons' [Table]): a header and the data rows.
    Rows are kept as they are stored, so a row may be shorter or longer than
    the header. *)
Record Table : Type := mkTable {
  columns : list string;
  data : list row
}.

Module Tbl.

(** Modelled from the spec: [Table.num_rows], absent from the sources: the
    number of data rows. *)
Definition num_rows (t : Table) : nat := List.length (data t).

(** Modelled from the spec: [Table.first], absent from the sources: the
    first value of the first data row, and [None] when there is none. *)
Definition first (t : Table) : value :=
  match data t with
  | (v :: _) :: _ => v
  | _ => VNone
  end.

Fixpoint chunk_rows (fuel size : nat) (rows : list row) : list (list row) :=
  match fuel, rows with
  | S k, _ :: _ => firstn size rows :: chunk_rows k size (skipn size rows)
  | _, _ => []
  end.

(** Modelled from the spec: [Table.chunk], absent from the sources: the
    table split into fixed-size row chunks under the same header, the last
    chunk holding the remainder. *)
Definition chunk (size : nat) (t : Table) : list Table :=
  map (mkTable (columns t))
      (chunk_rows (List.length (data t)) size (data t)).

(** the sizes of fixed-size chunks of [n] rows: [size] each, and the
    remainder last when there is one *)
Definition chunk_sizes (size n : nat) : list nat :=
  (repeat size (n / size)
     ++ (if (n mod size =? 0)%nat then [] else [n mod size]))%list.

Fixpoint index_of (col : string) (header : list string) : option nat :=
  match header with
  | [] => None
  | h :: hs => if String.eqb h col then Some 0
               else option_map S (index_of col hs)
  end.

(** Modelled from the spec: [Table.column_data], absent from the sources:
    the values of one column, a row too short for it giving [None]. *)
Definition column_data (t : Table) (col : string) : list value :=
  match index_of col (columns t) with
  | Some i => map (fun r => nth i r VNone) (data t)
  | None => []
  end.

(** [petl.setheader]: the same rows under a new header. *)
Definition setheader (t : Table) (header : list string) : Table :=
  mkTable header (data t).

End Tbl.

(** ** Exceptions, events and the world *)

Inductive exn : Type :=
| SqliteError (msg : string)      (* sqlite3.Error and its subclasses *)
| ValueError (msg : string)
| AttributeError (msg : string)
| IndexError (msg : string)
| OtherError (msg : string).

(** [except sqlite3.Error] *)
Definition is_sqlite_error (e : exn) : bool :=
  match e with SqliteError _ => true | _ => false end.

Inductive outcome (A : Type) : Type :=
| Ret (a : A)
| Raise (e : exn).
Arguments Ret {A} a.
Arguments Raise {A} e.

Definition raises {A} (r : outcome A) : bool :=
  match r with Ret _ => false | Raise _ => true end.

Inductive level : Type := DEBUG | INFO.

(** What a connection is asked to do, cursors and log records left aside. *)
Inductive op : Type :=
| OpConnect (c : nat) (file : string)
| OpExec (c : nat) (s : string)
| OpCommit (c : nat)
| OpRollback (c : nat)
| OpClose (c : nat).

(** What the connector does to its environment: [c] is a connection handle,
    [k] a cursor number. *)
Inductive event : Type :=
| Connect (c : nat) (file : string)
| OpenCursor (c k : nat)
| Execute (c k : nat) (s : string)
| Commit (c : nat)
| Rollback (c : nat)
| CloseCursor (k : nat)
| CloseConnection (c : nat)
| TempFile (path : string)
| Dump (path : string) (header : list string) (rows : list row)
| Log (l : level) (msg : string).

Fixpoint db_ops (t : list event) : list op :=
  match t with
  | [] => []
  | Connect c f :: r => OpConnect c f :: db_ops r
  | Execute c _ s :: r => OpExec c s :: db_ops r
  | Commit c :: r => OpCommit c :: db_ops r
  | Rollback c :: r => OpRollback c :: db_ops r
  | CloseConnection c :: r => OpClose c :: db_ops r
  | _ :: r => db_ops r
  end.

(** the INSERT statements among the operations *)
Fixpoint inserts (ops : list op) : list string :=
  match ops with
  | [] => []
  | OpExec _ s :: r =>
      if PyStr.startswith "INSERT INTO" s then s :: inserts r else inserts r
  | _ :: r => inserts r
  end.

(** the temp files created *)
Fixpoint temp_files (t : list event) : list string :=
  match t with
  | [] => []
  | TempFile p :: r => p :: temp_files r
  | _ :: r => temp_files r
  end.

(** The description of a result set: the column names ([d[0]] of each entry),
    or [None] when the statement has no result columns. *)
Definition description : Type := option (list string).

(** [not cursor.description] *)
Definition falsy (d : description) : bool :=
  match d with
  | None | Some [] => true
  | Some (_ :: _) => false
  end.

(** the table a result set is read back as *)
Definition table_of_result (d : description) (rows : list row) : Table :=
  mkTable (match d with Some names => names | None => [] end) rows.

(** The answer of the database engine to one statement, on the content the
    connection sees: the new content, the description and the result rows, or
    an exception (the content is then unchanged). *)
Inductive answer (Store : Type) : Type :=
| RunOk (s : Store) (d : description) (rows : list row)
| RunErr (e : exn).
Arguments RunOk {Store} s d rows.
Arguments RunErr {Store} e.

(** A connection object: the file it is bound to, the content of its open
    transaction when it has one, and whether it was closed. *)
Record Conn (Store : Type) : Type := mkConn {
  c_file : string;
  c_pending : option Store;
  c_closed : bool
}.

Record World (Store : Type) : Type := mkWorld {
  disk : string -> Store;           (* committed content, per file *)
  conns : list (Conn Store);        (* connection objects, by handle *)
  cursors : nat;                    (* cursors handed out so far *)
  temps : nat;                      (* temp files handed out so far *)
  spills : list (string * Table);   (* pickled result files *)
  trace : list event
}.

(** ** The state and exception monad *)

Section Connector.

(** The database engine and the collaborators of the connector. *)
Variable Store : Type.
(** what the engine answers to one statement on a given content *)
Variable run : string -> Store -> answer Store.
(** [files.create_temp_file]: the path of the n-th temp file *)
Variable temp_name : nat -> string.
(** [DatabaseCreateStatement.format_columns(columns, col_prefix)] *)
Variable format_columns : list string -> string -> list string.
(** [DatabaseCreateStatement.detect_data_type(val, current_type)] *)
Variable detect_data_type : value -> value -> value.

Abbreviation world := (World Store).

Definition M (A : Type) : Type := world -> outcome A * world.

Definition ret {A} (a : A) : M A := fun w => (Ret a, w).

Definition raise {A} (e : exn) : M A := fun w => (Raise e, w).

Definition bind {A B} (m : M A) (f : A -> M B) : M B :=
  fun w =>
    match m w with
    | (Ret a, w1) => f a w1
    | (Raise e, w1) => (Raise e, w1)
    end.

Notation "x <- m ;; f" := (bind m (fun x => f))
  (at level 61, m at next level, right associativity).
Notation "m ;; f" := (bind m (fun _ => f))
  (at level 61, right associativity).

(** [try: body finally: fin] *)
Definition try_finally {A} (body : M A) (fin : M unit) : M A :=
  fun w =>
    match body w with
    | (r, w1) =>
        match fin w1 with
        | (Ret _, w2) => (r, w2)
        | (Raise e, w2) => (Raise e, w2)
        end
    end.

(** [try: body except <caught>: handler] *)
Definition try_except {A} (body : M A) (caught : exn -> bool)
           (handler : M A) : M A :=
  fun w =>
    match body w with
    | (Raise e, w1) => if caught e then handler w1 else (Raise e, w1)
    | r => r
    end.

Definition emit (e : event) : M unit :=
  fun w => (Ret tt, mkWorld (disk w) (conns w) (cursors w) (temps w)
                            (spills w) (trace w ++ [e])).

Definition log (l : level) (msg : string) : M unit := emit (Log l msg).

(** *** The sqlite3 module

    A connection sees the committed content of its file until a statement
    opens its transaction; a commit writes the content of the transaction to
    the file, a rollback and a close drop it.  Opening a file, committing
    and rolling back on an open connection, and closing are taken to
    succeed; anything asked of a closed connection but its closing raises a
    database error.  The rows of a result set stay with the cursor after the
    commit. *)

Fixpoint set_nth {A} (n : nat) (a : A) (l : list A) : list A :=
  match n, l with
  | _, [] => []
  | 0, _ :: r => a :: r
  | S k, x :: r => x :: set_nth k a r
  end.

Definition set_conns (cs : list (Conn Store)) (w : world) : world :=
  mkWorld (disk w) cs (cursors w) (temps w) (spills w) (trace w).

Definition set_disk (file : string) (s : Store) (w : world) : world :=
  mkWorld (fun g => if String.eqb g file then s else disk w g)
          (conns w) (cursors w) (temps w) (spills w) (trace w).

(** the open connection behind a handle *)
Definition live (c : nat) (w : world) : option (Conn Store) :=
  match nth_error (conns w) c with
  | Some cn => if c_closed cn then None else Some cn
  | None => None
  end.

Definition closed_error {A} : M A :=
  raise (SqliteError "Cannot operate on a closed database.").

(** [sqlite3.connect(file)]: a new connection object, no transaction open *)
Definition sqlite3_connect (file : string) : M nat :=
  fun w =>
    let c := List.length (conns w) in
    let w1 := set_conns (conns w ++ [mkConn file None false])%list w in
    (emit (Connect c file) ;; ret c) w1.

(** [connection.cursor()] *)
Definition connection_cursor (c : nat) : M nat :=
  fun w =>
    match live c w with
    | None => closed_error w
    | Some _ =>
        let k := cursors w in
        (emit (OpenCursor c k) ;; ret k)
          (mkWorld (disk w) (conns w) (S k) (temps w) (spills w) (trace w))
    end.

(** [cursor.execute(s)]: the statement runs on the content of the open
    transaction, or on the committed content when none is open; its effect
    stays pending until the next commit.  A failing statement leaves the
    content as it was. *)
Definition cursor_execute (c k : nat) (s : string)
  : M (description * list row) :=
  emit (Execute c k s) ;;
  fun w =>
    match live c w with
    | None => closed_error w
    | Some cn =>
        let seen := match c_pending cn with
                    | Some p => p
                    | None => disk w (c_file cn)
                    end in
        match run s seen with
        | RunErr e => (Raise e, w)
        | RunOk s' d rows =>
            (Ret (d, rows),
             set_conns (set_nth c (mkConn (c_file cn) (Some s') false)
                                (conns w)) w)
        end
    end.

(** [connection.commit()] *)
Definition connection_commit (c : nat) : M unit :=
  fun w =>
    match live c w with
    | None => closed_error w
    | Some cn =>
        emit (Commit c)
             (match c_pending cn with
              | Some p =>
                  set_conns (set_nth c (mkConn (c_file cn) None false)
                                     (conns w))
                            (set_disk (c_file cn) p w)
              | None => w
              end)
    end.

(** [connection.rollback()] *)
Definition connection_rollback (c : nat) : M unit :=
  fun w =>
    match live c w with
    | None => closed_error w
    | Some cn =>
        emit (Rollback c)
             (set_conns (set_nth c (mkConn (c_file cn) None false)
                                 (conns w)) w)
    end.

(** [connection.close()]: what was not committed is lost *)
Definition connection_close (c : nat) : M unit :=
  fun w =>
    emit (CloseConnection c)
         (match nth_error (conns w) c with
          | Some cn =>
              set_conns (set_nth c (mkConn (c_file cn) None true) (conns w))
                        w
          | None => w
          end).

(** [cursor.close()] *)
Definition cursor_close (k : nat) : M unit := emit (CloseCursor k).

(** Modelled from the spec: [files.create_temp_file], absent from the
    sources: the temp-file factory, a new file at each call. *)
Definition create_temp_file : M string :=
  fun w =>
    let p := temp_name (temps w) in
    (emit (TempFile p) ;; ret p)
      (mkWorld (disk w) (conns w) (cursors w) (S (temps w)) (spills w)
               (trace w)).

(** the pickled file written in one [with open(...)] block *)
Definition dump (path : string) (t : Table) : M unit :=
  fun w =>
    emit (Dump path (columns t) (data t))
         (mkWorld (disk w) (conns w) (cursors w) (temps w)
                  ((path, t) :: spills w) (trace w)).

(** *** The connector *)

Definition QUERY_BATCH_SIZE : nat := N.to_nat 100000.

(** An instance: the database file it is bound to. *)
Record SQLite : Type := mkSQLite { file : string }.

(** The class object: the default of [__init__]'s [file] argument, which
    Python evaluates when the [def] statement runs. *)
Record SQLiteClass : Type := mkSQLiteClass { default_file : string }.

(** the [class SQLite] statement *)
Definition class_definition : M SQLiteClass :=
  p <- create_temp_file ;; ret (mkSQLiteClass p).

(** [SQLite(file)], and [SQLite()] when the argument is left out *)
Definition __init__ (cls : SQLiteClass) (file : option string) : M SQLite :=
  ret (mkSQLite (match file with
                 | Some f => f
                 | None => default_file cls
                 end)).

(** [with self.connection() as connection: body]: [None] is the scope left
    normally after the handler caught the body's exception. *)
Definition connection {A} (self : SQLite) (body : nat -> M A)
  : M (option A) :=
  c <- sqlite3_connect (file self) ;;
  try_finally
    (try_except (a <- body c ;; ret (Some a))
                is_sqlite_error
                (connection_rollback c ;; ret None))
    (connection_close c).

(** [with self.cursor(connection) as cursor: body] *)
Definition cursor {A} (c : nat) (body : nat -> M A) : M A :=
  k <- connection_cursor c ;;
  try_finally (body k) (cursor_close k).

(** One turn of the statement loop of [query_with_connection]: an empty
    fragment leaves the cursor as it is. *)
Definition exec_fragment (sql : string) (c k : nat) (commit : bool)
           (s : string) (cur : description * list row)
  : M (description * list row) :=
  if PyStr.nonempty s then
    log DEBUG ("SQL Query: " ++ sql) ;;
    t <- cursor_execute c k s ;;
    connection_commit c ;;
    ret t
  else ret cur.

(** [for s in sql.strip().split(";")] *)
Fixpoint exec_loop (sql : string) (c k : nat) (commit : bool)
         (frags : list string) (cur : description * list row)
  : M (description * list row) :=
  match frags with
  | [] => ret cur
  | s :: rest =>
      cur' <- exec_fragment sql c k commit s cur ;;
      exec_loop sql c k commit rest cur'
  end.

(** [while True: batch = cursor.fetchmany(QUERY_BATCH_SIZE) ...]: the rows
    written to the file, a log record per batch.  The fuel bounds the
    number of non-empty batches. *)
Fixpoint fetch_loop (fuel : nat) (pending : list row) : M (list row) :=
  match fuel with
  | 0 => ret []
  | S n =>
      match firstn QUERY_BATCH_SIZE pending with
      | [] => ret []
      | batch =>
          log DEBUG ("Fetched " ++ PyStr.of_nat (List.length batch)
                                ++ " rows.") ;;
          more <- fetch_loop n (skipn QUERY_BATCH_SIZE pending) ;;
          ret (batch ++ more)%list
      end
  end.

(** [query_with_connection].  The table returned is the lazy view of the
    pickled file, modelled by what the file holds: the header and the rows.
    As in the source, [parameters] and [commit] are taken and not used. *)
Definition query_with_connection (sql : string) (c : nat)
           (parameters : option (list value)) (commit : bool)
  : M (option Table) :=
  cursor c (fun k =>
    cur <- exec_loop sql c k commit
                     (PyStr.split ";" (PyStr.strip sql)) (None, []) ;;
    if falsy (fst cur) then
      log DEBUG "Query returned 0 rows" ;;
      ret None
    else
      temp_file <- create_temp_file ;;
      let header := match fst cur with Some names => names | None => [] end in
      rows <- fetch_loop (S (List.length (snd cur))) (snd cur) ;;
      dump temp_file (mkTable header rows) ;;
      let final_tbl := mkTable header rows in
      log DEBUG ("Query returned " ++ PyStr.of_nat (Tbl.num_rows final_tbl)
                                   ++ " rows.") ;;
      ret (Some final_tbl)).

(** [query]: the table, or [None] when the scope was left without a
    [return]. *)
Definition query (self : SQLite) (sql : string)
           (parameters : option (list value)) : M (option Table) :=
  r <- connection self
         (fun c => query_with_connection sql c parameters true) ;;
  ret (match r with Some t => t | None => None end).

Definition lookup_sql (table_name : string) : string :=
  "SELECT name FROM sqlite_master WHERE type='table' AND name LIKE '"
    ++ table_name ++ "'".

Definition table_exists (self : SQLite) (table_name : string) : M bool :=
  r <- query self (lookup_sql table_name) None ;;
  match r with
  | None =>
      raise (AttributeError "'NoneType' object has no attribute 'first'")
  | Some t => ret (PyVal.eq_str (Tbl.first t) table_name)
  end.

Definition drop_sql (table_name : string) : string :=
  "DROP TABLE " ++ table_name.

(** [if_exists not in ["fail", "append", "drop"]] *)
Definition invalid_if_exists (if_exists : string) : bool :=
  negb (String.eqb if_exists "fail" || String.eqb if_exists "append"
        || String.eqb if_exists "drop").

(** [True], or [None] when the function runs off its end. *)
Definition _create_table_precheck (self : SQLite) (c : nat)
           (table_name if_exists : string) : M (option bool) :=
  if invalid_if_exists if_exists then
    raise (ValueError "Invalid value for `if_exists` argument")
  else
    e <- table_exists self table_name ;;
    if e then
      if String.eqb if_exists "fail" then
        raise (ValueError "Table already exists.")
      else if String.eqb if_exists "drop" then
        query_with_connection (drop_sql table_name) c None true ;;
        log INFO (table_name ++ " dropped.") ;;
        ret (Some true)
      else ret None
    else ret (Some true).

(** [f"({row[0]})"] *)
Definition single_value (r : row) : outcome string :=
  match r with
  | v :: _ => Ret ("(" ++ PyVal.str v ++ ")")
  | [] => Raise (IndexError "tuple index out of range")
  end.

Fixpoint single_values (rows : list row) : outcome (list string) :=
  match rows with
  | [] => Ret []
  | r :: rest =>
      match single_value r with
      | Raise e => Raise e
      | Ret v =>
          match single_values rest with
          | Raise e => Raise e
          | Ret vs => Ret (v :: vs)
          end
      end
  end.

Definition indent : string := "                  ".

Definition insert_text (table_name : string) (cols : list string)
           (values : list string) : string :=
  "INSERT INTO " ++ table_name ++ PyStr.nl
    ++ indent ++ "(" ++ PyStr.join "," cols ++ ")" ++ PyStr.nl
    ++ indent ++ "VALUES " ++ PyStr.join "," values ++ ";".

Definition _insert_statement (tbl : Table) (table_name : string)
  : outcome string :=
  match (if (List.length (columns tbl) =? 1)%nat
         then single_values (data tbl)
         else Ret (map PyVal.str_tuple (data tbl))) with
  | Raise e => Raise e
  | Ret values => Ret (insert_text table_name (columns tbl) values)
  end.

(** *** The create-table statement builder *)

Definition data_type (val current_type : value) : value :=
  detect_data_type val current_type.

Definition columns_convert (cols : list string) : list string :=
  format_columns cols "col_".

Definition evaluate_column (column_rows : list value) : value :=
  fold_left (fun col_type r => data_type r col_type) column_rows VNone.

Definition evaluate_table (tbl : Table) : list (string * value) :=
  map (fun col => (col, evaluate_column (Tbl.column_data tbl col)))
      (columns tbl).

(** The statement, and the table with the header [create_statement] gave
    it: the caller's table object is changed in place. *)
Definition create_statement (tbl : Table) (table_name : string)
  : string * Table :=
  let tbl := Tbl.setheader tbl (columns_convert (columns tbl)) in
  let table_map := evaluate_table tbl in
  let column_syntax :=
    map (fun c => fst c ++ " " ++ PyVal.str (snd c) ++ " " ++ PyStr.nl)
        table_map in
  ("CREATE TABLE " ++ table_name ++ " ( " ++ PyStr.nl ++ " "
     ++ PyStr.join "," column_syntax ++ ");", tbl).

(** *** copy *)

(** [for t in tbl.chunk(chunk_size)] *)
Fixpoint insert_loop (c : nat) (table_name : string) (chunks : list Table)
  : M unit :=
  match chunks with
  | [] => ret tt
  | t :: rest =>
      match _insert_statement t table_name with
      | Raise e => raise e
      | Ret sql =>
          query_with_connection sql c None true ;;
          insert_loop c table_name rest
      end
  end.

(** [tbl.chunk(chunk_size)]; the chunks are cut at
    [range(0, num_rows, chunk_size)], which refuses a zero step. *)
Definition tbl_chunk (chunk_size : nat) (tbl : Table) : M (list Table) :=
  match chunk_size with
  | 0 => raise (ValueError "range() arg 3 must not be zero")
  | _ => ret (Tbl.chunk chunk_size tbl)
  end.

(** The [if self._create_table_precheck(...)] statement of [copy]: the
    table as it is afterwards, its header changed when the table was
    created. *)
Definition prepare (self : SQLite) (c : nat) (tbl : Table)
           (table_name if_exists : string) : M Table :=
  needed <- _create_table_precheck self c table_name if_exists ;;
  match needed with
  | Some true =>
      let '(sql, tbl') := create_statement tbl table_name in
      query_with_connection sql c None true ;;
      log INFO ("Table " ++ table_name ++ " created.") ;;
      ret tbl'
  | _ => ret tbl
  end.

(** The body of the [with self.connection() as connection] block of
    [copy]. *)
Definition copy_scope (self : SQLite) (tbl : Table)
           (table_name if_exists : string) (chunk_size : nat) (c : nat)
  : M unit :=
  tbl <- prepare self c tbl table_name if_exists ;;
  chunks <- tbl_chunk chunk_size tbl ;;
  insert_loop c table_name chunks.

Definition copy (self : SQLite) (tbl : Table) (table_name if_exists : string)
           (chunk_size : nat) : M unit :=
  if (Tbl.num_rows tbl =? 0)%nat then
    log INFO "Parsons table is empty. Table will not be created." ;;
    ret tt
  else
    connection self (copy_scope self tbl table_name if_exists chunk_size) ;;
    ret tt.

(** *** What a trace and a statement text amount to *)

(** the statements [query_with_connection] executes for a text *)
Definition statements_of (sql : string) : list string :=
  filter PyStr.nonempty (PyStr.split ";" (PyStr.strip sql)).

(** the content and the cursor after the statements, run in order up to the
    first that fails *)
Fixpoint run_stmts (stmts : list string) (st : Store)
         (cur : description * list row)
  : Store * outcome (description * list row) :=
  match stmts with
  | [] => (st, Ret cur)
  | s :: rest =>
      match run s st with
      | RunErr e => (st, Raise e)
      | RunOk st' d rows => run_stmts rest st' (d, rows)
      end
  end.

(** what [query_with_connection] returns once the statements are run *)
Definition result_of (r : outcome (description * list row))
  : outcome (option Table) :=
  match r with
  | Raise e => Raise e
  | Ret (d, rows) =>
      Ret (match d with
           | Some ((_ :: _) as names) => Some (mkTable names rows)
           | _ => None
           end)
  end.

(** what the connection is asked to do for these statements: each one
    that succeeds is followed by its commit *)
Fixpoint stmt_ops (c : nat) (stmts : list string) (st : Store) : list op :=
  match stmts with
  | [] => []
  | s :: rest =>
      OpExec c s ::
      match run s st with
      | RunErr _ => []
      | RunOk st' _ _ => OpCommit c :: stmt_ops c rest st'
      end
  end.

(** connection [c] is open on file [f], with no transaction pending *)
Definition idle (c : nat) (f : string) (w : world) : Prop :=
  nth_error (conns w) c = Some (mkConn f None false).

(** From [w] to [w']: the connection objects are as they were, file [f]
    holds [st], the other files are untouched, and [ops] were asked of the
    connections. *)
Definition evolves (f : string) (w w' : world) (st : Store)
           (ops : list op) : Prop :=
  conns w' = conns w
  /\ disk w' f = st
  /\ (forall g, g <> f -> disk w' g = disk w g)
  /\ db_ops (trace w') = (db_ops (trace w) ++ ops)%list.

(** the statements executed for one chunk of [copy] *)
Definition chunk_statements (table_name : string) (t : Table)
  : list string :=
  match _insert_statement t table_name with
  | Ret sql => statements_of sql
  | Raise _ => []
  end.

(** the content of the file once the chunks are inserted one after the
    other, when every chunk is rendered and every statement goes through *)
Fixpoint inserted (table_name : string) (chunks : list Table) (st : Store)
  : option Store :=
  match chunks with
  | [] => Some st
  | t :: rest =>
      match _insert_statement t table_name with
      | Raise _ => None
      | Ret sql =>
          match run_stmts (statements_of sql) st (None, []) with
          | (st', Ret _) => inserted table_name rest st'
          | (_, Raise _) => None
          end
      end
  end.

(** a statement and its commit *)
Definition committed (c : nat) (s : string) : list op :=
  [OpExec c s; OpCommit c].

(** what the scope of [connection] makes of the outcome of its body *)
Definition scope_result {A} (rb : outcome A) : outcome (option A) :=
  match rb with
  | Ret a => Ret (Some a)
  | Raise e => if is_sqlite_error e then Ret None else Raise e
  end.

(** what the scope asks of its connection on the way out *)
Definition exit_ops {A} (c : nat) (rb : outcome A) : list op :=
  match rb with
  | Ret _ => [OpClose c]
  | Raise e =>
      if is_sqlite_error e then [OpRollback c; OpClose c] else [OpClose c]
  end.

(** what [query] returns once the statements are run *)
Definition query_result (r : outcome (description * list row))
  : outcome (option Table) :=
  match scope_result (result_of r) with
  | Ret (Some t) => Ret t
  | Ret None => Ret None
  | Raise e => Raise e
  end.

(** From [w] to [w']: nothing was asked of a connection and no file
    content changed. *)
Definition quiet (w w' : world) : Prop :=
  conns w' = conns w
  /\ disk w' = disk w
  /\ db_ops (trace w') = db_ops (trace w).

(** From [w] to [w']: the connection objects of [w] are as they were;
    connections may have been added. *)
Definition extends (w w' : world) : Prop :=
  List.length (conns w) <= List.length (conns w')
  /\ forall c, c < List.length (conns w) ->
               nth_error (conns w') c = nth_error (conns w) c.

(** From [w] to [w']: no temp file was created and no pickled file
    written. *)
Definition same_files (w w' : world) : Prop :=
  spills w' = spills w
  /\ temps w' = temps w
  /\ temp_files (trace w') = temp_files (trace w).

End Connector.


Arguments query_with_connection {Store} run temp_name sql c parameters commit.
Arguments query {Store} run temp_name self sql parameters.
Arguments table_exists {Store} run temp_name self table_name.
Arguments _create_table_precheck {Store} run temp_name self c table_name
  if_exists.
Arguments copy {Store} run temp_name format_columns detect_data_type self tbl
  table_name if_exists chunk_size.
Arguments connection {Store A} self body.
Arguments copy_scope {Store} run temp_name format_columns detect_data_type
  self tbl table_name if_exists chunk_size c.
Arguments prepare {Store} run temp_name format_columns detect_data_type
  self c tbl table_name if_exists.
Arguments insert_loop {Store} run temp_name c table_name chunks.
Arguments run_stmts {Store} run stmts st cur.
Arguments stmt_ops {Store} run c stmts st.
Arguments exec_loop {Store} run sql c k commit frags cur.
Arguments exec_fragment {Store} run sql c k commit s cur.
Arguments fetch_loop {Store} fuel pending.
Arguments cursor_execute {Store} run c k s.
Arguments idle {Store} c f w.
Arguments evolves {Store} f w w' st ops.
Arguments live {Store} c w.
Arguments quiet {Store} w w'.
Arguments same_files {Store} w w'.
Arguments extends {Store} w w'.
Arguments inserted {Store} run table_name chunks st.
Arguments class_definition {Store} temp_name.
Arguments __init__ {Store} cls file.

(** ** A scripted engine for concrete runs

    The content of a database is the journal of the statements that changed
    it.  A script gives the engine's answer to the statements it lists: a
    result set, which leaves the content as it is, or an exception; any other
    statement succeeds without result columns and is entered in the
    journal. *)
Module Scripted.

Definition Store : Type := list string.

Inductive canned : Type :=
| Rows (d : description) (rows : list row)
| Fails (e : exn).

Fixpoint find (s : string) (script : list (string * canned))
  : option canned :=
  match script with
  | [] => None
  | (q, a) :: rest => if String.eqb q s then Some a else find s rest
  end.

Definition run (script : list (string * canned)) (s : string) (st : Store)
  : answer Store :=
  match find s script with
  | Some (Rows d rows) => RunOk st d rows
  | Some (Fails e) => RunErr e
  | None => RunOk (st ++ [s])%list None []
  end.

Definition temp_name (n : nat) : string := "/tmp/tmp" ++ PyStr.of_nat n.

Definition format_columns (cols : list string) (prefix : string)
  : list string := cols.

Definition detect_data_type (val current_type : value) : value :=
  match val, current_type with
  | VInt _, VNone => VStr "int"
  | VInt _, t => t
  | _, _ => VStr "varchar"
  end.

(** no connection yet, every file an empty database *)
Definition start : World Store := mkWorld (fun _ => []) [] 0 0 [] [].

Definition db : SQLite := mkSQLite "db.sqlite".

(** connection 0 open on the file of [db] *)
Definition opened : World Store := snd (sqlite3_connect (file db) start).

(** the catalog without, and with, a table of that name *)
Definition absent (name : string) : string * canned :=
  (lookup_sql name, Rows (Some ["name"]) []).

Definition present (name : string) : string * canned :=
  (lookup_sql name, Rows (Some ["name"]) [[VStr name]]).

(** five rows of two columns *)
Definition letters : Table :=
  mkTable ["n"; "s"]
          [[VInt 1; VStr "a"]; [VInt 2; VStr "b"]; [VInt 3; VStr "c"];
           [VInt 4; VStr "d"]; [VInt 5; VStr "e"]].

(** one row whose value closes the VALUES list and opens a statement *)
Definition crafted : Table :=
  mkTable ["c"] [[VStr "1);INSERT INTO t (c) VALUES (2"]].

(** the INSERT of the third chunk of [letters], which [full] refuses *)
Definition refused : string :=
  hd "" (chunk_statements "t" (mkTable ["n"; "s"] [[VInt 5; VStr "e"]])).

Definition full : list (string * canned) :=
  [absent "t"; (refused, Fails (SqliteError "database or disk is full"))].

(** the CREATE TABLE statement for [letters] *)
Definition create_letters : string :=
  hd "" (statements_of
           (fst (create_statement format_columns detect_data_type letters
                                  "t"))).

(** one column, and a second row without a value *)
Definition ragged : Table := mkTable ["c"] [[VInt 1]; []].

End Scripted.

(** ** Facts about lists and strings *)

Lemma set_nth_length {A} (n : nat) (a : A) (l : list A) :
  List.length (set_nth n a l) = List.length l.
Proof.
  revert n; induction l as [|x l IH]; intros [|n]; simpl; auto.
Qed.

Lemma nth_error_set_nth_same {A} (n : nat) (a b : A) (l : list A) :
  nth_error l n = Some b -> nth_error (set_nth n a l) n = Some a.
Proof.
  revert n; induction l as [|x l IH]; intros [|n]; simpl; try discriminate;
    auto.
Qed.

Lemma nth_error_set_nth_other {A} (n m : nat) (a : A) (l : list A) :
  n <> m -> nth_error (set_nth n a l) m = nth_error l m.
Proof.
  revert n m; induction l as [|x l IH]; intros [|n] [|m] H; simpl; auto.
  - congruence.
Qed.

Lemma set_nth_twice {A} (n : nat) (a b : A) (l : list A) :
  set_nth n a (set_nth n b l) = set_nth n a l.
Proof.
  revert n; induction l as [|x l IH]; intros [|n]; simpl; auto.
  now rewrite IH.
Qed.

Lemma set_nth_id {A} (n : nat) (a : A) (l : list A) :
  nth_error l n = Some a -> set_nth n a l = l.
Proof.
  revert n; induction l as [|x l IH]; intros [|n]; simpl; try discriminate.
  - now intros [= ->].
  - intros H. now rewrite IH.
Qed.

Lemma nth_error_snoc {A} (l : list A) (a : A) :
  nth_error (l ++ [a]) (List.length l) = Some a.
Proof.
  induction l; simpl; auto.
Qed.

Lemma db_ops_app (a b : list event) :
  db_ops (a ++ b) = (db_ops a ++ db_ops b)%list.
Proof.
  induction a as [|e a IH]; simpl; auto.
  destruct e; simpl; now rewrite ?IH.
Qed.

Lemma temp_files_app (a b : list event) :
  temp_files (a ++ b) = (temp_files a ++ temp_files b)%list.
Proof.
  induction a as [|e a IH]; simpl; auto.
  destruct e; simpl; now rewrite ?IH.
Qed.

Module PyStrFacts.
Import PyStr.

Lemma contains_app (c : ascii) (a b : string) :
  contains c (a ++ b) = contains c a || contains c b.
Proof.
  induction a as [|d a IH]; simpl; auto.
  now rewrite IH, orb_assoc.
Qed.

Lemma split_without (sep : ascii) (s : string) :
  contains sep s = false -> split sep s = [s].
Proof.
  induction s as [|c s IH]; simpl; auto.
  intros H. apply orb_false_iff in H as [Hc Hs].
  now rewrite Hc, (IH Hs).
Qed.

Lemma split_at (sep : ascii) (a b : string) :
  contains sep a = false ->
  split sep (a ++ String sep b) = a :: split sep b.
Proof.
  induction a as [|c a IH]; simpl; intros H.
  - now rewrite Ascii.eqb_refl.
  - apply orb_false_iff in H as [Hc Ha].
    now rewrite Hc, (IH Ha).
Qed.

Lemma rstrip_keeps (a : string) (c : ascii) :
  isspace c = false ->
  rstrip (a ++ String c EmptyString) = a ++ String c EmptyString.
Proof.
  intros Hc. induction a as [|d a IH]; simpl.
  - now rewrite Hc.
  - rewrite IH. destruct a; reflexivity.
Qed.

Lemma last_append (a : string) (c : ascii) :
  last (a ++ String c EmptyString) = Some c.
Proof.
  induction a as [|d a IH]; simpl; auto.
  rewrite IH. destruct a; reflexivity.
Qed.

Lemma append_assoc (a b c : string) : (a ++ b) ++ c = a ++ (b ++ c).
Proof.
  induction a as [|d a IH]; simpl; auto. now rewrite IH.
Qed.

Lemma startswith_append (a b : string) : startswith a (a ++ b) = true.
Proof.
  unfold startswith. induction a as [|d a IH]; simpl.
  - now destruct b.
  - destruct (ascii_dec d d); [exact IH | congruence].
Qed.

End PyStrFacts.

Module TblFacts.
Import Tbl.

Lemma chunk_rows_sizes (size : nat) :
  size <> 0 ->
  forall fuel rows,
    List.length rows <= fuel ->
    map (@List.length row) (chunk_rows fuel size rows)
    = chunk_sizes size (List.length rows).
Proof.
  intros Hs. unfold chunk_sizes.
  induction fuel as [|k IH]; intros rows Hlen.
  - destruct rows; [|simpl in Hlen; lia]. simpl.
    rewrite Nat.Div0.div_0_l, Nat.Div0.mod_0_l. reflexivity.
  - destruct rows as [|r rows].
    + simpl. rewrite Nat.Div0.div_0_l, Nat.Div0.mod_0_l.
      reflexivity.
    + cbn [chunk_rows map].
      remember (r :: rows) as l eqn:El.
      assert (Hn : 0 < List.length l) by (subst l; simpl; lia).
      assert (Hk : List.length (skipn size l) <= k).
      { rewrite length_skipn. subst l. cbn [List.length] in *. lia. }
      rewrite (IH _ Hk), length_firstn, length_skipn.
      destruct (Nat.lt_ge_cases (List.length l) size) as [Hlt|Hge].
      * replace (List.length l - size) with 0 by lia.
        rewrite Nat.Div0.div_0_l, Nat.Div0.mod_0_l.
        rewrite (Nat.div_small _ _ Hlt), (Nat.mod_small _ _ Hlt).
        replace (Nat.min size (List.length l)) with (List.length l) by lia.
        destruct (Nat.eqb_spec (List.length l) 0); [lia|]. reflexivity.
      * replace (Nat.min size (List.length l)) with size by lia.
        assert (E : List.length l = (List.length l - size) + 1 * size)
          by lia.
        assert (Hd : List.length l / size
                     = S ((List.length l - size) / size)).
        { rewrite E at 1. rewrite Nat.div_add by assumption. lia. }
        assert (Hm : List.length l mod size
                     = (List.length l - size) mod size).
        { rewrite E at 1. now rewrite Nat.Div0.mod_add. }
        rewrite Hd, Hm. reflexivity.
Qed.

Lemma chunk_rows_concat (size : nat) :
  size <> 0 ->
  forall fuel rows,
    List.length rows <= fuel ->
    List.concat (chunk_rows fuel size rows) = rows.
Proof.
  intros Hs. induction fuel as [|k IH]; intros rows Hlen.
  - destruct rows; [reflexivity | simpl in Hlen; lia].
  - destruct rows as [|r rows]; [reflexivity|].
    cbn [chunk_rows List.concat].
    rewrite IH, firstn_skipn; [reflexivity|].
    rewrite length_skipn. cbn [List.length] in *. lia.
Qed.

Lemma ceiling (size n : nat) :
  size <> 0 ->
  List.length (chunk_sizes size n) = (n + size - 1) / size.
Proof.
  intros Hs. unfold chunk_sizes.
  rewrite length_app, repeat_length.
  pose proof (Nat.div_mod_eq n size) as E.
  pose proof (Nat.mod_upper_bound n size Hs) as B.
  destruct (Nat.eqb_spec (n mod size) 0) as [Hz|Hz]; simpl.
  - apply Nat.div_unique with (r := size - 1); [lia|].
    rewrite Hz in E. lia.
  - apply Nat.div_unique with (r := n mod size - 1); [lia|]. lia.
Qed.

(** [chunk] cuts the rows into [ceil(n / size)] chunks, all of the given
    size but possibly the last, without losing or reordering a row. *)
Lemma chunk_spec (size : nat) (t : Table) :
  size <> 0 ->
  map num_rows (chunk size t) = chunk_sizes size (num_rows t)
  /\ List.length (chunk size t) = (num_rows t + size - 1) / size
  /\ List.concat (map data (chunk size t)) = data t
  /\ Forall (fun ch => columns ch = columns t) (chunk size t).
Proof.
  intros Hs. unfold chunk, num_rows.
  assert (S1 : map (fun ch => List.length (data ch))
                   (map (mkTable (columns t))
                        (chunk_rows (List.length (data t)) size (data t)))
               = chunk_sizes size (List.length (data t))).
  { rewrite map_map. cbn [data].
    apply chunk_rows_sizes; auto. }
  repeat split.
  - exact S1.
  - rewrite <- (ceiling (List.length (data t)) Hs), <- S1.
    now rewrite !length_map.
  - rewrite map_map. cbn [data]. rewrite map_id.
    apply chunk_rows_concat; auto.
  - apply Forall_forall. intros ch Hin. apply in_map_iff in Hin.
    destruct Hin as (rs & <- & _). reflexivity.
Qed.

End TblFacts.

(** ** The statement loop and [query_with_connection] *)

Section Facts.

Variable Store : Type.
Variable run : string -> Store -> answer Store.
Variable temp_name : nat -> string.
Variable format_columns : list string -> string -> list string.
Variable detect_data_type : value -> value -> value.

Lemma evolves_refl (f : string) (w : World Store) :
  evolves f w w (disk w f) [].
Proof.
  unfold evolves. rewrite app_nil_r. auto.
Qed.

Lemma evolves_trans (f : string) (w1 w2 w3 : World Store)
      (s2 s3 : Store) (o2 o3 : list op) :
  evolves f w1 w2 s2 o2 -> evolves f w2 w3 s3 o3 ->
  evolves f w1 w3 s3 (o2 ++ o3).
Proof.
  intros (C1 & D1 & F1 & T1) (C2 & D2 & F2 & T2).
  repeat split.
  - congruence.
  - assumption.
  - intros g Hg. rewrite F2, F1; auto.
  - rewrite T2, T1. now rewrite app_assoc.
Qed.

Lemma idle_evolves (c : nat) (f g : string) (w w' : World Store)
      (st : Store) (ops : list op) :
  idle c f w -> evolves g w w' st ops -> idle c f w'.
Proof.
  unfold idle. intros H (C & _). now rewrite C.
Qed.

(** One statement that the engine accepts: executed, then committed. *)
Lemma exec_fragment_ok sql c k commit s cur f w st d rows :
  idle c f w -> PyStr.nonempty s = true ->
  run s (disk w f) = RunOk st d rows ->
  exists w',
    exec_fragment run sql c k commit s cur w = (Ret (d, rows), w')
    /\ evolves f w w' st [OpExec c s; OpCommit c].
Proof.
  unfold idle. intros Hc Hs Hr.
  unfold exec_fragment. rewrite Hs.
  unfold bind, log, emit, cursor_execute, bind, emit, live. simpl.
  rewrite Hc. simpl. rewrite Hr.
  unfold connection_commit, live, set_conns. simpl.
  rewrite (nth_error_set_nth_same _ _ _ Hc). simpl.
  unfold ret. eexists. split; [reflexivity|].
  unfold evolves. simpl. repeat split.
  - rewrite set_nth_twice. now apply set_nth_id.
  - now rewrite String.eqb_refl.
  - intros g Hg. apply String.eqb_neq in Hg. now rewrite Hg.
  - rewrite !db_ops_app. simpl. now rewrite <- !app_assoc.
Qed.

(** One statement that the engine refuses: nothing is committed. *)
Lemma exec_fragment_err sql c k commit s cur f w e :
  idle c f w -> PyStr.nonempty s = true ->
  run s (disk w f) = RunErr e ->
  exists w',
    exec_fragment run sql c k commit s cur w = (Raise e, w')
    /\ evolves f w w' (disk w f) [OpExec c s].
Proof.
  unfold idle. intros Hc Hs Hr.
  unfold exec_fragment. rewrite Hs.
  unfold bind, log, emit, cursor_execute, bind, emit, live. simpl.
  rewrite Hc. simpl. rewrite Hr.
  eexists. split; [reflexivity|].
  unfold evolves. simpl. repeat split.
  rewrite !db_ops_app. simpl. now rewrite <- !app_assoc.
Qed.

(** The statement loop runs the non-empty fragments in order, committing
    after each, up to the first one that fails. *)
Lemma exec_loop_spec sql c k commit f :
  forall frags cur w,
    idle c f w ->
    let stmts := filter PyStr.nonempty frags in
    exists w',
      exec_loop run sql c k commit frags cur w
      = (snd (run_stmts run stmts (disk w f) cur), w')
      /\ evolves f w w' (fst (run_stmts run stmts (disk w f) cur))
                 (stmt_ops run c stmts (disk w f)).
Proof.
  induction frags as [|s rest IH]; intros cur w Hc; simpl.
  - exists w. split; [reflexivity | apply evolves_refl].
  - unfold bind at 1.
    destruct (PyStr.nonempty s) eqn:Hs; simpl.
    + destruct (run s (disk w f)) as [st d rows|e] eqn:Hr.
      * destruct (exec_fragment_ok sql k commit cur Hc Hs Hr)
          as (w1 & E1 & V1).
        rewrite E1.
        destruct (IH (d, rows) w1 (idle_evolves Hc V1)) as (w2 & E2 & V2).
        assert (D1 : disk w1 f = st) by apply V1.
        rewrite D1 in E2, V2.
        exists w2. split; [exact E2|].
        apply (evolves_trans V1 V2).
      * destruct (exec_fragment_err sql k commit cur Hc Hs Hr)
          as (w1 & E1 & V1).
        rewrite E1. exists w1. split; [reflexivity | exact V1].
    + unfold exec_fragment. rewrite Hs. unfold ret at 1.
      apply IH, Hc.
Qed.

Lemma quiet_refl (w : World Store) : quiet w w.
Proof. unfold quiet; auto. Qed.

Lemma quiet_trans (w1 w2 w3 : World Store) :
  quiet w1 w2 -> quiet w2 w3 -> quiet w1 w3.
Proof.
  intros (C1 & D1 & T1) (C2 & D2 & T2). repeat split; congruence.
Qed.

Lemma evolves_quiet (f : string) (w1 w2 w3 : World Store) st ops :
  evolves f w1 w2 st ops -> quiet w2 w3 -> evolves f w1 w3 st ops.
Proof.
  intros (C1 & D1 & F1 & T1) (C2 & D2 & T2). repeat split.
  - congruence.
  - now rewrite D2.
  - intros g Hg. rewrite D2. now apply F1.
  - congruence.
Qed.

Lemma quiet_evolves (f : string) (w1 w2 w3 : World Store) st ops :
  quiet w1 w2 -> evolves f w2 w3 st ops -> evolves f w1 w3 st ops.
Proof.
  intros (C1 & D1 & T1) (C2 & D2 & F2 & T2). repeat split.
  - congruence.
  - assumption.
  - intros g Hg. rewrite F2, D1; auto.
  - congruence.
Qed.

Lemma idle_quiet (c : nat) (f : string) (w w' : World Store) :
  idle c f w -> quiet w w' -> idle c f w'.
Proof.
  unfold idle. intros H (C & _). now rewrite C.
Qed.

Lemma quiet_emit_log (l : level) (msg : string) (w : World Store) :
  quiet w (snd (log l msg w)).
Proof.
  unfold quiet, log, emit. simpl. repeat split.
  rewrite db_ops_app. simpl. now rewrite app_nil_r.
Qed.

Lemma batch_size_positive : QUERY_BATCH_SIZE <> 0.
Proof. unfold QUERY_BATCH_SIZE. lia. Qed.

(** The fetch loop terminates within its fuel and writes every row of the
    result set, in order. *)
Lemma fetch_loop_all :
  forall fuel rows (w : World Store),
    List.length rows < fuel ->
    exists w',
      fetch_loop fuel rows w = (Ret rows, w')
      /\ quiet w w' /\ temps w' = temps w
      /\ temp_files (trace w') = temp_files (trace w).
Proof.
  induction fuel as [|n IH]; intros rows w Hlen; [lia|].
  cbn [fetch_loop].
  pose proof batch_size_positive as Hb.
  destruct QUERY_BATCH_SIZE as [|b]; [congruence|]. clear Hb.
  destruct rows as [|r rows]; cbn [firstn skipn].
  - exists w. repeat split; auto.
  - unfold bind at 1.
    pose proof (quiet_emit_log DEBUG
      ("Fetched " ++ PyStr.of_nat (List.length (r :: firstn b rows))
                  ++ " rows.") w) as Q0.
    unfold log, emit in *. cbn [snd] in Q0. unfold bind.
    match goal with
    | |- context [fetch_loop n (skipn b rows) ?w0] =>
        destruct (IH (skipn b rows) w0) as (w1 & E1 & Q1 & T1 & F1)
    end.
    { rewrite length_skipn. simpl in Hlen. lia. }
    rewrite E1. unfold ret. exists w1. split.
    + simpl. now rewrite firstn_skipn.
    + split; [|split].
      * eapply quiet_trans; eauto.
      * rewrite T1. reflexivity.
      * rewrite F1. simpl. rewrite temp_files_app. simpl.
        now rewrite app_nil_r.
Qed.

Lemma cursor_open (c : nat) (f : string) (w : World Store) :
  idle c f w ->
  exists w0, connection_cursor c w = (Ret (cursors w), w0) /\ quiet w w0.
Proof.
  unfold idle, connection_cursor, live. intros ->. simpl.
  unfold bind, emit, ret. eexists. split; [reflexivity|].
  unfold quiet. simpl. repeat split.
  rewrite db_ops_app. simpl. now rewrite app_nil_r.
Qed.

Lemma cursor_close_quiet (k : nat) (w : World Store) :
  exists w', cursor_close k w = (Ret tt, w') /\ quiet w w'.
Proof.
  unfold cursor_close, emit. eexists. split; [reflexivity|].
  unfold quiet. simpl. repeat split.
  rewrite db_ops_app. simpl. now rewrite app_nil_r.
Qed.

Lemma create_temp_file_quiet (w : World Store) :
  exists w',
    create_temp_file temp_name w = (Ret (temp_name (temps w)), w')
    /\ quiet w w'.
Proof.
  unfold create_temp_file, bind, emit, ret. eexists.
  split; [reflexivity|].
  unfold quiet. simpl. repeat split.
  rewrite db_ops_app. simpl. now rewrite app_nil_r.
Qed.

Lemma dump_quiet (path : string) (t : Table) (w : World Store) :
  exists w', dump path t w = (Ret tt, w') /\ quiet w w'.
Proof.
  unfold dump, emit. eexists. split; [reflexivity|].
  unfold quiet. simpl. repeat split.
  rewrite db_ops_app. simpl. now rewrite app_nil_r.
Qed.

Lemma log_quiet (l : level) (msg : string) (w : World Store) :
  exists w', log l msg w = (Ret tt, w') /\ quiet w w'.
Proof.
  exists (snd (log l msg w)). split; [reflexivity | apply quiet_emit_log].
Qed.

(** [query_with_connection] on an idle connection: the statements of the
    text are run in order and committed one by one; the result is [None]
    when the last description is falsy and the table of the result set
    otherwise; an exception of the engine comes out as it is. *)
Lemma query_with_connection_spec sql c parameters commit f w :
  idle c f w ->
  let r := run_stmts run (statements_of sql) (disk w f) (None, []) in
  exists w',
    query_with_connection run temp_name sql c parameters commit w
    = (result_of (snd r), w')
    /\ evolves f w w' (fst r) (stmt_ops run c (statements_of sql) (disk w f)).
Proof.
  intros Hc r.
  unfold query_with_connection, cursor.
  destruct (cursor_open Hc) as (w0 & E0 & Q0).
  unfold bind at 1. rewrite E0. unfold try_finally.
  assert (D0 : disk w0 f = disk w f) by (destruct Q0 as (_ & -> & _); auto).
  destruct (exec_loop_spec sql (cursors w) commit
              (PyStr.split ";" (PyStr.strip sql)) (None, [])
              (idle_quiet Hc Q0)) as (w1 & E1 & V1).
  cbv zeta in E1, V1. rewrite D0 in E1, V1.
  fold (statements_of sql) in E1, V1. fold r in E1, V1.
  unfold bind at 1. rewrite E1.
  destruct (snd r) as [[d rows]|e] eqn:Hr; cbn [result_of].
  - destruct (falsy d) eqn:Hd; cbn [fst snd].
    + rewrite Hd.
      destruct (log_quiet DEBUG "Query returned 0 rows" w1)
        as (w2 & E2 & Q2).
      unfold bind at 1. rewrite E2. unfold ret.
      destruct (cursor_close_quiet (cursors w) w2) as (w3 & E3 & Q3).
      rewrite E3. exists w3. split.
      * destruct d as [[|n names]|]; try discriminate; reflexivity.
      * eapply quiet_evolves; [exact Q0|].
        eapply evolves_quiet; [exact V1|].
        eapply quiet_trans; eauto.
    + rewrite Hd.
      destruct (create_temp_file_quiet w1) as (w2 & E2 & Q2).
      unfold bind at 1. rewrite E2.
      destruct (@fetch_loop_all (S (List.length rows)) rows w2)
        as (w3 & E3 & Q3 & _); [lia|].
      unfold bind at 1. rewrite E3.
      unfold bind at 1.
      match goal with
      | |- context [dump ?p ?t w3] =>
          destruct (dump_quiet p t w3) as (w4 & E4 & Q4)
      end.
      rewrite E4. unfold bind at 1.
      match goal with
      | |- context [log DEBUG ?m w4] =>
          destruct (log_quiet DEBUG m w4) as (w5 & E5 & Q5)
      end.
      rewrite E5. unfold ret.
      destruct (cursor_close_quiet (cursors w) w5) as (w6 & E6 & Q6).
      rewrite E6. exists w6. split.
      * destruct d as [[|n names]|]; try discriminate; reflexivity.
      * eapply quiet_evolves; [exact Q0|].
        eapply evolves_quiet; [exact V1|].
        eapply quiet_trans; [exact Q2|].
        eapply quiet_trans; [exact Q3|].
        eapply quiet_trans; [exact Q4|].
        eapply quiet_trans; [exact Q5 | exact Q6].
  - destruct (cursor_close_quiet (cursors w) w1) as (w3 & E3 & Q3).
    rewrite E3. exists w3. split; [reflexivity|].
    eapply quiet_evolves; [exact Q0|].
    eapply evolves_quiet; [exact V1 | exact Q3].
Qed.

(** So [None] comes back exactly when the last statement executed has no
    result columns (or none was executed), whatever the number of rows. *)
Lemma query_with_connection_none sql c parameters commit f
      (w : World Store) (st : Store) (d : description) (rows : list row) :
  idle c f w ->
  run_stmts run (statements_of sql) (disk w f) (None, [])
  = (st, Ret (d, rows)) ->
  (fst (query_with_connection run temp_name sql c parameters commit w)
   = Ret None <-> falsy d = true)
  /\ (falsy d = false ->
      fst (query_with_connection run temp_name sql c parameters commit w)
      = Ret (Some (table_of_result d rows))).
Proof.
  intros Hc Hr.
  destruct (query_with_connection_spec sql parameters commit Hc)
    as (w' & E & _).
  cbv zeta in E. rewrite Hr in E. rewrite E. cbn [fst snd result_of].
  destruct d as [[|n names]|]; cbn [falsy]; split;
    try (split; [reflexivity | discriminate || reflexivity]);
    try (split; discriminate);
    try discriminate; try reflexivity.
Qed.

(** ** The scoped connection *)

Lemma connect_spec (path : string) (w : World Store) :
  exists w1,
    sqlite3_connect path w = (Ret (List.length (conns w)), w1)
    /\ conns w1 = (conns w ++ [mkConn path None false])%list
    /\ disk w1 = disk w
    /\ trace w1 = (trace w ++ [Connect (List.length (conns w)) path])%list.
Proof.
  unfold sqlite3_connect, bind, emit, ret, set_conns. simpl.
  eexists. split; [reflexivity|]. simpl. auto.
Qed.

Lemma close_spec (c : nat) (w : World Store) :
  exists w',
    connection_close c w = (Ret tt, w')
    /\ live c w' = None
    /\ disk w' = disk w
    /\ (forall c', c' <> c -> nth_error (conns w') c' = nth_error (conns w) c')
    /\ trace w' = (trace w ++ [CloseConnection c])%list.
Proof.
  unfold connection_close, emit, live.
  destruct (nth_error (conns w) c) as [cn|] eqn:Hc; simpl.
  - eexists. split; [reflexivity|]. simpl.
    rewrite (nth_error_set_nth_same _ _ _ Hc). simpl. repeat split.
    intros c' Hc'. apply nth_error_set_nth_other. congruence.
  - eexists. split; [reflexivity|]. simpl. rewrite Hc. auto.
Qed.

Lemma rollback_spec (c : nat) (cn : Conn Store) (w : World Store) :
  live c w = Some cn ->
  exists w',
    connection_rollback c w = (Ret tt, w')
    /\ disk w' = disk w
    /\ nth_error (conns w') c = Some (mkConn (c_file cn) None false)
    /\ (forall c', c' <> c -> nth_error (conns w') c' = nth_error (conns w) c')
    /\ trace w' = (trace w ++ [Rollback c])%list.
Proof.
  unfold connection_rollback. intros H. rewrite H.
  unfold live in H. destruct (nth_error (conns w) c) as [cn'|] eqn:Hc;
    [|discriminate].
  unfold emit, set_conns. simpl.
  eexists. split; [reflexivity|]. simpl. repeat split.
  - now apply nth_error_set_nth_same with (b := cn').
  - intros c' Hc'. apply nth_error_set_nth_other. congruence.
Qed.

Lemma rollback_closed (c : nat) (w : World Store) :
  live c w = None ->
  connection_rollback c w
  = (Raise (SqliteError "Cannot operate on a closed database."), w).
Proof.
  unfold connection_rollback. now intros ->.
Qed.

(** C3 (as amended): the scope [with self.connection() as connection]
    closes the handle on every exit, and lets a non-database error of its
    body through once the handle is closed; a database error of the body
    is rolled back and then suppressed: the scope is left normally, and
    the caller sees no exception.  (When the body left the handle closed,
    the rollback itself fails and that failure comes out.)  Nothing is
    written to a file on the way out. *)
Theorem connection_scope_exit (A : Type) (self : SQLite)
        (body : nat -> M Store A) (w : World Store) :
  let c := List.length (conns w) in
  let w1 := snd (sqlite3_connect (file self) w) in
  let rb := fst (body c w1) in
  let w2 := snd (body c w1) in
  let r := fst (connection self body w) in
  let w3 := snd (connection self body w) in
  live c w3 = None
  /\ disk w3 = disk w2
  /\ match rb with
     | Ret a =>
         r = Ret (Some a)
         /\ trace w3 = (trace w2 ++ [CloseConnection c])%list
     | Raise e =>
         if is_sqlite_error e then
           match live c w2 with
           | Some _ =>
               r = Ret None
               /\ trace w3
                  = (trace w2 ++ [Rollback c; CloseConnection c])%list
           | None =>
               r = Raise (SqliteError "Cannot operate on a closed database.")
               /\ trace w3 = (trace w2 ++ [CloseConnection c])%list
           end
         else
           r = Raise e
           /\ trace w3 = (trace w2 ++ [CloseConnection c])%list
     end.
Proof.
  intros c w1 rb w2 r w3.
  destruct (connect_spec (file self) w) as (w1' & E1 & _).
  assert (Hw1 : w1 = w1') by (unfold w1; now rewrite E1).
  subst r w3.
  destruct (connection self body w) as [r w3] eqn:Ec. cbn [fst snd].
  unfold connection in Ec. unfold bind at 1 in Ec. rewrite E1 in Ec.
  unfold try_finally, try_except in Ec. unfold bind at 1 in Ec.
  fold c in Ec. rewrite <- Hw1 in Ec.
  subst rb w2.
  destruct (body c w1) as [[a|e] w2]; cbn [fst snd].
  - unfold ret in Ec.
    destruct (close_spec c w2) as (w3' & E3 & L3 & D3 & _ & T3).
    rewrite E3 in Ec. injection Ec as <- <-. auto.
  - destruct (is_sqlite_error e) eqn:He.
    + destruct (live c w2) as [cn|] eqn:Hl.
      * destruct (@rollback_spec _ _ _ Hl) as (wr & Er & Dr & _ & _ & Tr).
        unfold bind in Ec. rewrite Er in Ec. unfold ret in Ec.
        destruct (close_spec c wr) as (w3' & E3 & L3 & D3 & _ & T3).
        rewrite E3 in Ec. injection Ec as <- <-. repeat split; auto.
        -- congruence.
        -- rewrite T3, Tr, <- app_assoc. reflexivity.
      * unfold bind in Ec. rewrite (@rollback_closed _ _ Hl) in Ec.
        destruct (close_spec c w2) as (w3' & E3 & L3 & D3 & _ & T3).
        rewrite E3 in Ec. injection Ec as <- <-. auto.
    + destruct (close_spec c w2) as (w3' & E3 & L3 & D3 & _ & T3).
      rewrite E3 in Ec. injection Ec as <- <-. auto.
Qed.

(** The scope around a body that leaves the connection open and idle. *)
Lemma scope_spec (A : Type) (self : SQLite) (body : nat -> M Store A)
      (w w1 w2 : World Store) (rb : outcome A) :
  let c := List.length (conns w) in
  sqlite3_connect (file self) w = (Ret c, w1) ->
  body c w1 = (rb, w2) ->
  idle c (file self) w2 ->
  exists w3,
    connection self body w = (scope_result rb, w3)
    /\ disk w3 = disk w2
    /\ (forall c', c' <> c ->
                  nth_error (conns w3) c' = nth_error (conns w2) c')
    /\ List.length (conns w3) = List.length (conns w2)
    /\ db_ops (trace w3) = (db_ops (trace w2) ++ exit_ops c rb)%list.
Proof.
  intros c E1 Eb Hc.
  assert (Hl : live c w2 = Some (mkConn (file self) None false)).
  { unfold live. unfold idle in Hc. now rewrite Hc. }
  unfold connection, bind at 1. rewrite E1.
  unfold try_finally, try_except, bind at 1. rewrite Eb.
  destruct rb as [a|e]; cbn [scope_result exit_ops].
  - unfold ret.
    destruct (close_spec c w2) as (w3 & E3 & L3 & D3 & N3 & T3).
    rewrite E3. exists w3. repeat split; auto.
    + unfold connection_close, emit in E3. unfold idle in Hc.
      rewrite Hc in E3. injection E3 as <-. simpl.
      now rewrite set_nth_length.
    + rewrite T3, db_ops_app. reflexivity.
  - destruct (is_sqlite_error e) eqn:He.
    + destruct (@rollback_spec _ _ _ Hl) as (wr & Er & Dr & Cr & Nr & Tr).
      unfold bind. rewrite Er. unfold ret.
      destruct (close_spec c wr) as (w3 & E3 & L3 & D3 & N3 & T3).
      rewrite E3. exists w3. repeat split.
      * congruence.
      * intros c' Hc'. rewrite N3, Nr; auto.
      * unfold connection_close, emit in E3. rewrite Cr in E3.
        injection E3 as <-. simpl. rewrite set_nth_length.
        unfold connection_rollback in Er. rewrite Hl in Er.
        unfold emit in Er. injection Er as <-. simpl.
        now rewrite set_nth_length.
      * rewrite T3, Tr, !db_ops_app, <- app_assoc. reflexivity.
    + destruct (close_spec c w2) as (w3 & E3 & L3 & D3 & N3 & T3).
      rewrite E3. exists w3. repeat split; auto.
      * unfold connection_close, emit in E3. unfold idle in Hc.
        rewrite Hc in E3. injection E3 as <-. simpl.
        now rewrite set_nth_length.
      * rewrite T3, db_ops_app. reflexivity.
Qed.

Lemma exit_ops_result_of (c : nat) (r : outcome (description * list row)) :
  exit_ops c (result_of r) = exit_ops c r.
Proof. destruct r as [[d rows]|e]; reflexivity. Qed.

(** [query]: a connection of its own, opened and closed around
    [query_with_connection]; a database error of a statement does not
    come out of it. *)
Lemma query_spec (self : SQLite) (sql : string)
      (parameters : option (list value)) (w : World Store) :
  let f := file self in
  let c := List.length (conns w) in
  let r := run_stmts run (statements_of sql) (disk w f) (None, []) in
  exists w',
    query run temp_name self sql parameters w = (query_result (snd r), w')
    /\ disk w' f = fst r
    /\ (forall g, g <> f -> disk w' g = disk w g)
    /\ (forall c', c' < c ->
                  nth_error (conns w') c' = nth_error (conns w) c')
    /\ List.length (conns w') = S c
    /\ db_ops (trace w')
       = (db_ops (trace w)
            ++ OpConnect c f
            :: stmt_ops run c (statements_of sql) (disk w f)
            ++ exit_ops c (snd r))%list.
Proof.
  intros f c r.
  destruct (connect_spec f w) as (w1 & E1 & C1 & D1 & T1).
  assert (H1 : idle c f w1).
  { unfold idle. rewrite C1. apply nth_error_snoc. }
  destruct (query_with_connection_spec sql parameters true H1)
    as (w2 & E2 & V2).
  cbv zeta in E2, V2. rewrite D1 in E2, V2. fold r in E2, V2.
  destruct (@scope_spec _ self
              (fun c => query_with_connection run temp_name sql c
                                              parameters true)
              w w1 w2 _ E1 E2 (idle_evolves H1 V2))
    as (w3 & E3 & D3 & N3 & L3 & T3).
  destruct V2 as (C2 & D2 & F2 & T2).
  unfold query, bind. rewrite E3. fold c in N3, T3.
  assert (Hw : disk w3 f = fst r
               /\ (forall g, g <> f -> disk w3 g = disk w g)
               /\ (forall c', c' < c ->
                      nth_error (conns w3) c' = nth_error (conns w) c')
               /\ List.length (conns w3) = S c
               /\ db_ops (trace w3)
                  = (db_ops (trace w)
                       ++ OpConnect c f
                       :: stmt_ops run c (statements_of sql) (disk w f)
                       ++ exit_ops c (snd r))%list).
  { repeat split.
    - now rewrite D3.
    - intros g Hg. rewrite D3, F2, D1; auto.
    - intros c' Hc'. rewrite N3, C2, C1 by lia.
      now apply nth_error_app1.
    - rewrite L3, C2, C1, length_app. simpl. fold c. lia.
    - rewrite T3, T2, T1, db_ops_app, exit_ops_result_of. simpl.
      rewrite <- !app_assoc. reflexivity. }
  unfold query_result.
  destruct (scope_result (result_of (snd r))) as [[t|]|e];
    unfold ret; eexists; (split; [reflexivity | exact Hw]).
Qed.

(** ** [table_exists] *)

Lemma statements_of_lookup (table_name : string) :
  PyStr.contains ";" table_name = false ->
  statements_of (lookup_sql table_name) = [lookup_sql table_name].
Proof.
  intros H. unfold statements_of, PyStr.strip.
  assert (L : PyStr.lstrip (lookup_sql table_name) = lookup_sql table_name)
    by reflexivity.
  rewrite L.
  assert (R : PyStr.rstrip (lookup_sql table_name) = lookup_sql table_name).
  { unfold lookup_sql. rewrite <- PyStrFacts.append_assoc.
    now apply PyStrFacts.rstrip_keeps. }
  rewrite R, PyStrFacts.split_without.
  - reflexivity.
  - unfold lookup_sql. rewrite !PyStrFacts.contains_app, H. reflexivity.
Qed.

(** An INSERT text without [;] in the table name, the column names and the
    value groups is one statement: the text without its last character. *)
Lemma insert_text_one_statement (table_name : string)
      (cols values : list string) :
  PyStr.contains ";" table_name = false ->
  PyStr.contains ";" (PyStr.join "," cols) = false ->
  PyStr.contains ";" (PyStr.join "," values) = false ->
  statements_of (insert_text table_name cols values)
  = ["INSERT INTO " ++ table_name ++ PyStr.nl
       ++ indent ++ "(" ++ PyStr.join "," cols ++ ")" ++ PyStr.nl
       ++ indent ++ "VALUES " ++ PyStr.join "," values].
Proof.
  intros Hn Hc Hv.
  set (body := "INSERT INTO " ++ table_name ++ PyStr.nl
                 ++ indent ++ "(" ++ PyStr.join "," cols ++ ")" ++ PyStr.nl
                 ++ indent ++ "VALUES " ++ PyStr.join "," values).
  assert (E : insert_text table_name cols values = body ++ ";").
  { unfold insert_text, body. now rewrite !PyStrFacts.append_assoc. }
  assert (Hb : PyStr.contains ";" body = false).
  { unfold body. rewrite !PyStrFacts.contains_app, Hn, Hc, Hv. reflexivity. }
  rewrite E. unfold statements_of, PyStr.strip.
  assert (L : PyStr.lstrip (body ++ ";") = body ++ ";") by reflexivity.
  change (body ++ ";") with (body ++ String ";"%char EmptyString).
  rewrite L, PyStrFacts.rstrip_keeps by reflexivity.
  rewrite (@PyStrFacts.split_at _ _ EmptyString Hb). reflexivity.
Qed.

Lemma table_exists_world (self : SQLite) (table_name : string)
      (w : World Store) :
  snd (table_exists run temp_name self table_name w)
  = snd (query run temp_name self (lookup_sql table_name) None w).
Proof.
  unfold table_exists, bind.
  destruct (query run temp_name self (lookup_sql table_name) None w)
    as [[[t|]|e] w']; reflexivity.
Qed.

(** C5 (as amended): for a name without [;], when the engine answers the
    catalog lookup with a result set, [table_exists] runs that lookup on a
    connection of its own and returns whether the first value of the first
    row IS the name, compared as Python strings: true exactly when the
    result set starts with a row that starts with the name as given, false
    when the result set is empty, and false as well when the catalog row
    found spells the name otherwise. *)
Theorem table_exists_exact_match (self : SQLite) (table_name : string)
        (w : World Store) (st : Store) (d : description)
        (rows : list row) :
  PyStr.contains ";" table_name = false ->
  run (lookup_sql table_name) (disk w (file self)) = RunOk st d rows ->
  falsy d = false ->
  let c := List.length (conns w) in
  exists (b : bool) (w' : World Store),
    table_exists run temp_name self table_name w = (Ret b, w')
    /\ b = PyVal.eq_str (Tbl.first (table_of_result d rows)) table_name
    /\ (b = true <->
        exists r rest, rows = (VStr table_name :: r) :: rest)
    /\ (rows = [] -> b = false)
    /\ db_ops (trace w')
       = (db_ops (trace w)
            ++ [OpConnect c (file self); OpExec c (lookup_sql table_name);
                OpCommit c; OpClose c])%list.
Proof.
  intros Hn Hr Hd c.
  destruct (query_spec self (lookup_sql table_name) None w)
    as (w' & E & _ & _ & _ & _ & T).
  cbv zeta in E, T. rewrite (statements_of_lookup _ Hn) in E, T.
  cbn [run_stmts stmt_ops] in E, T. rewrite Hr in E, T.
  cbn [snd fst query_result result_of scope_result exit_ops app] in E, T.
  assert (E' : query run temp_name self (lookup_sql table_name) None w
               = (Ret (Some (table_of_result d rows)), w')).
  { rewrite E. destruct d as [[|n names]|]; try discriminate; reflexivity. }
  clear E. rename E' into E.
  exists (PyVal.eq_str (Tbl.first (table_of_result d rows)) table_name), w'.
  split; [|split; [reflexivity|split; [|split]]].
  - unfold table_exists, bind. rewrite E. reflexivity.
  - unfold Tbl.first, table_of_result. cbn [data]. split.
    + destruct rows as [|[|v r] rest]; try discriminate.
      destruct v; try discriminate. cbn [PyVal.eq_str].
      intros ->%String.eqb_eq. eauto.
    + intros (r & rest & ->). cbn [PyVal.eq_str]. apply String.eqb_refl.
  - intros ->. reflexivity.
  - exact T.
Qed.

(** ** [_create_table_precheck] *)


Lemma idle_below (c : nat) (f : string) (w : World Store) :
  idle c f w -> c < List.length (conns w).
Proof.
  unfold idle. intros H. apply nth_error_Some. now rewrite H.
Qed.

Lemma table_exists_idle (self : SQLite) (table_name : string) (c : nat)
      (f : string) (w : World Store) :
  idle c f w ->
  idle c f (snd (table_exists run temp_name self table_name w)).
Proof.
  intros Hc. rewrite table_exists_world.
  destruct (query_spec self (lookup_sql table_name) None w)
    as (w' & E & _ & _ & N & _).
  rewrite E. cbn [snd]. unfold idle in *.
  rewrite N; auto. now apply idle_below with (f := f).
Qed.

Lemma query_with_connection_idle sql c parameters commit f
      (w : World Store) :
  idle c f w ->
  idle c f (snd (query_with_connection run temp_name sql c parameters
                                       commit w)).
Proof.
  intros Hc.
  destruct (query_with_connection_spec sql parameters commit Hc)
    as (w' & E & V).
  rewrite E. cbn [snd]. exact (idle_evolves Hc V).
Qed.

Lemma idle_log (c : nat) (f : string) (l : level) (msg : string)
      (w : World Store) :
  idle c f w -> idle c f (snd (log l msg w)).
Proof.
  intros Hc. exact (idle_quiet Hc (quiet_emit_log l msg w)).
Qed.

(** The precheck leaves the connection it is given open and idle. *)
Lemma create_table_precheck_idle (self : SQLite) (c : nat)
      (table_name if_exists f : string) (w : World Store) :
  idle c f w ->
  idle c f (snd (_create_table_precheck run temp_name self c table_name
                                        if_exists w)).
Proof.
  intros Hc. unfold _create_table_precheck.
  destruct (invalid_if_exists if_exists); [exact Hc|].
  pose proof (table_exists_idle self table_name Hc) as H1.
  unfold bind at 1.
  destruct (table_exists run temp_name self table_name w) as [[b|e] w1];
    cbn [snd] in *; [|exact H1].
  destruct b; [|exact H1].
  destruct (String.eqb if_exists "fail"); [exact H1|].
  destruct (String.eqb if_exists "drop"); [|exact H1].
  pose proof (query_with_connection_idle (drop_sql table_name) None true H1)
    as H2.
  unfold bind at 1.
  destruct (query_with_connection run temp_name (drop_sql table_name) c
                                  None true w1) as [[t|e] w2];
    cbn [snd] in *; [|exact H2].
  unfold bind.
  pose proof (idle_log INFO (table_name ++ " dropped.") H2) as H3.
  destruct (log INFO (table_name ++ " dropped.") w2) as [[u|e] w3];
    cbn [snd] in *; exact H3.
Qed.

(** So does the whole preparation of [copy]. *)
Lemma prepare_idle (self : SQLite) (c : nat) (tbl : Table)
      (table_name if_exists f : string) (w : World Store) :
  idle c f w ->
  idle c f (snd (prepare run temp_name format_columns detect_data_type
                         self c tbl table_name if_exists w)).
Proof.
  intros Hc. unfold prepare.
  pose proof (create_table_precheck_idle self table_name if_exists Hc)
    as H1.
  unfold bind at 1.
  destruct (_create_table_precheck run temp_name self c table_name
                                   if_exists w) as [[needed|e] w1];
    cbn [snd] in *; [|exact H1].
  destruct needed as [[|]|]; try exact H1.
  destruct (create_statement format_columns detect_data_type tbl table_name)
    as [sql tbl'].
  pose proof (query_with_connection_idle sql None true H1) as H2.
  unfold bind at 1.
  destruct (query_with_connection run temp_name sql c None true w1)
    as [[t|e] w2]; cbn [snd] in *; [|exact H2].
  unfold bind.
  pose proof (idle_log INFO ("Table " ++ table_name ++ " created.") H2)
    as H3.
  destruct (log INFO ("Table " ++ table_name ++ " created.") w2)
    as [[u|e] w3]; cbn [snd] in *; exact H3.
Qed.

(** ** The insert loop of [copy] *)

Lemma stmt_ops_ok (c : nat) :
  forall stmts st cur st' cur',
    run_stmts run stmts st cur = (st', Ret cur') ->
    stmt_ops run c stmts st = flat_map (committed c) stmts.
Proof.
  induction stmts as [|s rest IH]; intros st cur st' cur' H; simpl in *;
    [reflexivity|].
  destruct (run s st) as [st1 d rows|e]; [|discriminate].
  now rewrite (IH _ _ _ _ H).
Qed.

(** Chunks that all go through: each statement of each chunk is executed
    and committed, in order. *)
Lemma insert_loop_ok (c : nat) (f table_name : string) :
  forall chunks (w : World Store) st',
    idle c f w ->
    inserted run table_name chunks (disk w f) = Some st' ->
    exists w',
      insert_loop run temp_name c table_name chunks w = (Ret tt, w')
      /\ evolves f w w' st'
           (flat_map (committed c)
                     (flat_map (chunk_statements table_name) chunks)).
Proof.
  induction chunks as [|t rest IH]; intros w st' Hc Hi; simpl in *.
  - injection Hi as <-. exists w. split; [reflexivity|apply evolves_refl].
  - unfold chunk_statements at 1.
    destruct (_insert_statement t table_name) as [sql|e]; [|discriminate].
    destruct (query_with_connection_spec sql None true Hc)
      as (w1 & E1 & V1).
    cbv zeta in E1, V1.
    destruct (run_stmts run (statements_of sql) (disk w f) (None, []))
      as [st1 [cur1|e]] eqn:Hr; [|discriminate].
    cbn [fst snd] in E1, V1.
    rewrite (stmt_ops_ok c _ _ _ Hr) in V1.
    unfold bind. rewrite E1. destruct cur1 as [d rows]. cbn [result_of].
    assert (D1 : disk w1 f = st1) by apply V1.
    rewrite <- D1 in Hi.
    destruct (IH w1 st' (idle_evolves Hc V1) Hi) as (w2 & E2 & V2).
    exists w2. split; [exact E2|].
    rewrite flat_map_app. exact (evolves_trans V1 V2).
Qed.

(** Chunks of which one fails: the chunks before it are executed and
    committed as above; of the failing chunk, the statements up to the one
    the engine refuses. *)
Lemma insert_loop_fails (c : nat) (f table_name : string) :
  forall done t rest sql e (w : World Store) st,
    idle c f w ->
    inserted run table_name done (disk w f) = Some st ->
    _insert_statement t table_name = Ret sql ->
    snd (run_stmts run (statements_of sql) st (None, [])) = Raise e ->
    exists w',
      insert_loop run temp_name c table_name (done ++ t :: rest) w
      = (Raise e, w')
      /\ evolves f w w'
           (fst (run_stmts run (statements_of sql) st (None, [])))
           (flat_map (committed c)
                     (flat_map (chunk_statements table_name) done)
              ++ stmt_ops run c (statements_of sql) st).
Proof.
  induction done as [|d done IH]; intros t rest sql e w st Hc Hi Ht Hr;
    simpl in *.
  - injection Hi as <-. rewrite Ht.
    destruct (query_with_connection_spec sql None true Hc)
      as (w1 & E1 & V1).
    cbv zeta in E1, V1. rewrite Hr in E1. cbn [result_of] in E1.
    unfold bind. rewrite E1. exists w1. split; [reflexivity | exact V1].
  - unfold chunk_statements at 1.
    destruct (_insert_statement d table_name) as [sqld|ed]; [|discriminate].
    destruct (query_with_connection_spec sqld None true Hc)
      as (w1 & E1 & V1).
    cbv zeta in E1, V1.
    destruct (run_stmts run (statements_of sqld) (disk w f) (None, []))
      as [st1 [cur1|e1]] eqn:Hd; [|discriminate].
    cbn [fst snd] in E1, V1.
    rewrite (stmt_ops_ok c _ _ _ Hd) in V1.
    unfold bind. rewrite E1. destruct cur1 as [dd rows]. cbn [result_of].
    assert (D1 : disk w1 f = st1) by apply V1.
    rewrite <- D1 in Hi.
    destruct (IH t rest sql e w1 st (idle_evolves Hc V1) Hi Ht Hr)
      as (w2 & E2 & V2).
    exists w2. split; [exact E2|].
    rewrite flat_map_app, <- app_assoc. exact (evolves_trans V1 V2).
Qed.

(** ** [copy] *)

Abbreviation copy' :=
  (copy run temp_name format_columns detect_data_type).
Abbreviation prepare' :=
  (prepare run temp_name format_columns detect_data_type).
Abbreviation copy_scope' :=
  (copy_scope run temp_name format_columns detect_data_type).

Lemma create_statement_data (tbl : Table) (table_name : string) :
  data (snd (create_statement format_columns detect_data_type tbl
                              table_name)) = data tbl.
Proof. reflexivity. Qed.

(** The preparation changes the header of the table at most. *)
Lemma prepare_data (self : SQLite) (c : nat) (tbl tbl' : Table)
      (table_name if_exists : string) (w w2 : World Store) :
  prepare' self c tbl table_name if_exists w = (Ret tbl', w2) ->
  data tbl' = data tbl.
Proof.
  unfold prepare, bind at 1.
  destruct (_create_table_precheck run temp_name self c table_name
                                   if_exists w) as [[needed|e] w1];
    [|discriminate].
  pose proof (create_statement_data tbl table_name) as Hd.
  destruct (create_statement format_columns detect_data_type tbl table_name)
    as [sql t'].
  destruct needed as [[|]|]; unfold ret; try (now intros [= <- _]).
  unfold bind at 1.
  destruct (query_with_connection run temp_name sql c None true w1)
    as [[t|e] w3]; [|discriminate].
  unfold bind, log, emit. now intros [= <- _].
Qed.

(** When the precheck asks for the table and the engine accepts the
    CREATE TABLE text, the preparation executes and commits it. *)
Lemma prepare_creates (self : SQLite) (c : nat) (tbl tbl' : Table)
      (table_name if_exists f sql : string) (w wp : World Store)
      (st0 : Store) (cur : description * list row) :
  _create_table_precheck run temp_name self c table_name if_exists w
  = (Ret (Some true), wp) ->
  idle c f wp ->
  create_statement format_columns detect_data_type tbl table_name
  = (sql, tbl') ->
  run_stmts run (statements_of sql) (disk wp f) (None, []) = (st0, Ret cur) ->
  exists w2,
    prepare' self c tbl table_name if_exists w = (Ret tbl', w2)
    /\ evolves f wp w2 st0 (flat_map (committed c) (statements_of sql)).
Proof.
  intros Hp Hc Hs Hr.
  unfold prepare, bind at 1. rewrite Hp, Hs.
  destruct (query_with_connection_spec sql None true Hc) as (w1 & E1 & V1).
  cbv zeta in E1, V1. rewrite Hr in E1, V1. cbn [fst snd] in E1, V1.
  rewrite (stmt_ops_ok c _ _ _ Hr) in V1.
  unfold bind at 1. rewrite E1. destruct cur as [d rows]. cbn [result_of].
  unfold bind, ret.
  destruct (log_quiet INFO ("Table " ++ table_name ++ " created.") w1)
    as (w2 & E2 & Q2).
  rewrite E2. exists w2. split; [reflexivity|].
  exact (evolves_quiet V1 Q2).
Qed.

(** [copy] on a table with rows, from what the body of its scope does. *)
Lemma copy_from_scope (self : SQLite) (tbl : Table)
      (table_name if_exists : string) (chunk_size : nat)
      (w w1 w3 : World Store) (rb : outcome unit) :
  let c := List.length (conns w) in
  Tbl.num_rows tbl <> 0 ->
  sqlite3_connect (file self) w = (Ret c, w1) ->
  copy_scope' self tbl table_name if_exists chunk_size c w1 = (rb, w3) ->
  idle c (file self) w3 ->
  exists w',
    copy' self tbl table_name if_exists chunk_size w
    = (match rb with
       | Ret _ => Ret tt
       | Raise e => if is_sqlite_error e then Ret tt else Raise e
       end, w')
    /\ disk w' = disk w3
    /\ db_ops (trace w') = (db_ops (trace w3) ++ exit_ops c rb)%list.
Proof.
  intros c Hn E1 Eb Hc.
  unfold copy. destruct (Nat.eqb_spec (Tbl.num_rows tbl) 0); [contradiction|].
  destruct (@scope_spec _ self
              (copy_scope' self tbl table_name if_exists chunk_size)
              w w1 w3 rb E1 Eb Hc) as (w' & E & D & _ & _ & T).
  unfold bind. rewrite E. exists w'.
  destruct rb as [[]|e]; cbn [scope_result]; [auto|].
  destruct (is_sqlite_error e); auto.
Qed.

(** C7: on a table without rows [copy] writes one log record and returns
    [None]: no connection is opened, nothing is executed, no exception is
    raised, and the world is otherwise as it was. *)
Theorem copy_empty_table (self : SQLite) (tbl : Table)
        (table_name if_exists : string) (chunk_size : nat)
        (w : World Store) :
  Tbl.num_rows tbl = 0 ->
  copy' self tbl table_name if_exists chunk_size w
  = (Ret tt,
     mkWorld (disk w) (conns w) (cursors w) (temps w) (spills w)
             (trace w
                ++ [Log INFO
                        "Parsons table is empty. Table will not be created."
                   ])%list)
  /\ db_ops (trace (snd (copy' self tbl table_name if_exists chunk_size w)))
     = db_ops (trace w).
Proof.
  intros H. unfold copy. rewrite H. cbn [Nat.eqb].
  unfold bind, log, emit, ret. cbn [snd trace]. split; [reflexivity|].
  rewrite db_ops_app. simpl. now rewrite app_nil_r.
Qed.

(** C6 (as amended): for a table with [n] rows and a chunk size above zero,
    when the preparation completes, every chunk's INSERT text holds one
    statement and the engine accepts them all, [copy] returns normally and,
    after the preparation, asks of its one connection exactly one INSERT
    and its commit per chunk, in order, and then the close; the chunks are
    [ceil(n / chunk_size)] in number, all of [chunk_size] rows but possibly
    the last, and together they are the rows of the table. *)
Theorem copy_one_insert_per_chunk (self : SQLite) (tbl tbl' : Table)
        (table_name if_exists : string) (chunk_size : nat)
        (w w2 : World Store) (st' : Store) :
  let c := List.length (conns w) in
  let f := file self in
  let n := Tbl.num_rows tbl in
  let chunks := Tbl.chunk chunk_size tbl' in
  n <> 0 ->
  chunk_size <> 0 ->
  prepare' self c tbl table_name if_exists (snd (sqlite3_connect f w))
  = (Ret tbl', w2) ->
  Forall (fun t => exists s, chunk_statements table_name t = [s]) chunks ->
  inserted run table_name chunks (disk w2 f) = Some st' ->
  exists w',
    copy' self tbl table_name if_exists chunk_size w = (Ret tt, w')
    /\ db_ops (trace w')
       = (db_ops (trace w2)
            ++ flat_map (fun t => committed c
                                    (hd "" (chunk_statements table_name t)))
                        chunks
            ++ [OpClose c])%list
    /\ List.length chunks = (n + chunk_size - 1) / chunk_size
    /\ map Tbl.num_rows chunks = Tbl.chunk_sizes chunk_size n
    /\ List.concat (map data chunks) = data tbl
    /\ disk w' f = st'.
Proof.
  intros c f n chunks Hn Hs Hp Hone Hi.
  destruct (connect_spec f w) as (w1 & E1 & C1 & D1 & T1).
  rewrite E1 in Hp. cbn [snd] in Hp.
  assert (H1 : idle c f w1).
  { unfold idle. rewrite C1. apply nth_error_snoc. }
  pose proof (prepare_idle self tbl table_name if_exists H1) as H2.
  rewrite Hp in H2. cbn [snd] in H2.
  destruct (insert_loop_ok table_name chunks H2 Hi) as (w3 & E3 & V3).
  assert (Eb : copy_scope' self tbl table_name if_exists chunk_size c w1
               = (Ret tt, w3)).
  { unfold copy_scope, bind at 1. rewrite Hp.
    unfold bind, tbl_chunk. destruct chunk_size; [contradiction|].
    unfold ret. exact E3. }
  destruct (copy_from_scope self tbl table_name if_exists chunk_size
                            Hn E1 Eb (idle_evolves H2 V3))
    as (w' & E & D & T).
  destruct V3 as (C3 & D3 & F3 & T3).
  pose proof (TblFacts.chunk_spec tbl' Hs) as (S1 & S2 & S3 & _).
  assert (Hd : data tbl' = data tbl) by exact (prepare_data _ _ _ _ _ _ Hp).
  assert (Hn' : Tbl.num_rows tbl' = n) by (unfold n, Tbl.num_rows; congruence).
  exists w'. repeat split.
  - exact E.
  - rewrite T, T3. cbn [exit_ops]. rewrite <- app_assoc. f_equal. f_equal.
    clear -Hone. induction chunks as [|t rest IH]; [reflexivity|].
    inversion Hone as [|? ? (s & Hs) Hrest]; subst.
    cbn [flat_map]. rewrite Hs. cbn [hd app flat_map].
    now rewrite (IH Hrest).
  - fold chunks in S2. now rewrite S2, Hn'.
  - fold chunks in S1. now rewrite S1, Hn'.
  - fold chunks in S3. now rewrite S3.
  - now rewrite D.
Qed.

(** C10: [copy] does not undo what it has done.  When the precheck asks
    for the table, the CREATE TABLE text and the INSERTs of the first
    chunks go through and the engine then refuses an INSERT, every
    statement before the refused one was committed right after it was
    executed; the rollback (for a database error, which the scope then
    suppresses) comes after those commits, and the file keeps the content
    it had after the last accepted chunk. *)
Theorem copy_not_atomic (self : SQLite) (tbl tbl' : Table)
        (table_name if_exists sql_create sql s : string)
        (more : list string) (chunk_size : nat)
        (done rest : list Table) (t : Table)
        (w wp : World Store) (st0 st : Store)
        (cur : description * list row) (e : exn) :
  let c := List.length (conns w) in
  let f := file self in
  Tbl.num_rows tbl <> 0 ->
  chunk_size <> 0 ->
  _create_table_precheck run temp_name self c table_name if_exists
                         (snd (sqlite3_connect f w))
  = (Ret (Some true), wp) ->
  create_statement format_columns detect_data_type tbl table_name
  = (sql_create, tbl') ->
  run_stmts run (statements_of sql_create) (disk wp f) (None, [])
  = (st0, Ret cur) ->
  Tbl.chunk chunk_size tbl' = (done ++ t :: rest)%list ->
  inserted run table_name done st0 = Some st ->
  _insert_statement t table_name = Ret sql ->
  statements_of sql = s :: more ->
  run s st = RunErr e ->
  exists w',
    copy' self tbl table_name if_exists chunk_size w
    = (if is_sqlite_error e then Ret tt else Raise e, w')
    /\ disk w' f = st
    /\ db_ops (trace w')
       = (db_ops (trace wp)
            ++ flat_map (committed c)
                 (statements_of sql_create
                    ++ flat_map (chunk_statements table_name) done)
            ++ OpExec c s
            :: (if is_sqlite_error e then [OpRollback c] else [])
            ++ [OpClose c])%list.
Proof.
  intros c f Hn Hs Hp Hcs Hr Hch Hi Ht Hst He.
  destruct (connect_spec f w) as (w1 & E1 & C1 & D1 & T1).
  rewrite E1 in Hp. cbn [snd] in Hp.
  assert (H1 : idle c f w1).
  { unfold idle. rewrite C1. apply nth_error_snoc. }
  pose proof (create_table_precheck_idle self table_name if_exists H1)
    as Hc. rewrite Hp in Hc. cbn [snd] in Hc.
  destruct (@prepare_creates self c tbl tbl' table_name if_exists f
                             sql_create w1 wp st0 cur Hp Hc Hcs Hr)
    as (w2 & E2 & V2).
  assert (D2 : disk w2 f = st0) by apply V2.
  rewrite <- D2 in Hi.
  assert (Hf : run_stmts run (statements_of sql) st (None, [])
               = (st, Raise e)).
  { rewrite Hst. cbn [run_stmts]. now rewrite He. }
  assert (Hf' : snd (run_stmts run (statements_of sql) st (None, []))
                = Raise e) by now rewrite Hf.
  destruct (insert_loop_fails table_name done t rest
                              (idle_evolves Hc V2) Hi Ht Hf')
    as (w3 & E3 & V3).
  rewrite Hf in V3. cbn [fst] in V3.
  rewrite Hst in V3. cbn [stmt_ops] in V3. rewrite He in V3.
  assert (Eb : copy_scope' self tbl table_name if_exists chunk_size c w1
               = (Raise e, w3)).
  { unfold copy_scope, bind at 1. rewrite E2.
    unfold bind, tbl_chunk. destruct chunk_size; [contradiction|].
    unfold ret. rewrite Hch. exact E3. }
  pose proof (evolves_trans V2 V3) as V.
  destruct (copy_from_scope self tbl table_name if_exists chunk_size
                            Hn E1 Eb (idle_evolves Hc V))
    as (w' & E & D & T).
  destruct V as (_ & DV & _ & TV).
  exists w'. repeat split.
  - exact E.
  - now rewrite D.
  - rewrite T, TV. cbn [exit_ops]. rewrite flat_map_app, <- !app_assoc.
    cbn [app]. destruct (is_sqlite_error e); reflexivity.
Qed.

(** ** [_insert_statement] *)

Lemma single_values_spec (rows : list row) :
  Forall (fun r => r <> []) rows ->
  single_values rows
  = Ret (map (fun r => "(" ++ PyVal.str (hd VNone r) ++ ")") rows).
Proof.
  induction 1 as [|r rows Hr _ IH]; [reflexivity|].
  cbn [single_values map]. destruct r as [|v r]; [contradiction|].
  cbn [single_value hd]. now rewrite IH.
Qed.


(** ** The default of [file] *)

(** C9: the temp file behind the default of [file] is created once, when
    the class statement runs; constructing an instance without a file
    creates none, so any two instances constructed that way, whenever
    they are constructed, are bound to that one path, while a given path
    is taken as it is. *)
Theorem default_file_is_shared (w0 : World Store) :
  exists cls w1,
    class_definition temp_name w0 = (Ret cls, w1)
    /\ default_file cls = temp_name (temps w0)
    /\ temps w1 = S (temps w0)
    /\ (forall wa wb : World Store,
          exists a b,
            __init__ cls None wa = (Ret a, wa)
            /\ __init__ cls None wb = (Ret b, wb)
            /\ a = b
            /\ file a = default_file cls)
    /\ (forall (path : string) (wa : World Store),
          __init__ cls (Some path) wa = (Ret (mkSQLite path), wa)).
Proof.
  unfold class_definition, create_temp_file, bind, emit, ret.
  eexists. eexists. split; [reflexivity|]. cbn [default_file temps].
  repeat split.
  intros wa wb. unfold __init__, ret. cbn [default_file].
  eexists. eexists. repeat split.
Qed.

Lemma bind_ext (A B : Type) (m : M Store A) (f g : A -> M Store B)
      (w : World Store) :
  (forall a w', f a w' = g a w') -> bind m f w = bind m g w.
Proof.
  intros H. unfold bind. destruct (m w) as [[a|e] w']; auto.
Qed.

Lemma bind_ext_l (A B : Type) (m m' : M Store A) (f : A -> M Store B)
      (w : World Store) :
  m w = m' w -> bind m f w = bind m' f w.
Proof.
  intros H. unfold bind. now rewrite H.
Qed.

Lemma try_finally_ext (A : Type) (body body' : M Store A)
      (fin : M Store unit) (w : World Store) :
  body w = body' w -> try_finally body fin w = try_finally body' fin w.
Proof.
  intros H. unfold try_finally. now rewrite H.
Qed.

(** The [commit] argument of [query_with_connection] is never looked at. *)
Lemma commit_argument_unused (sql : string) (c : nat)
      (parameters : option (list value)) (w : World Store) :
  query_with_connection run temp_name sql c parameters false w
  = query_with_connection run temp_name sql c parameters true w.
Proof.
  assert (H : forall k frags cur w0,
             exec_loop run sql c k false frags cur w0
             = exec_loop run sql c k true frags cur w0).
  { intros k. induction frags as [|s rest IH]; intros cur w0;
      [reflexivity|].
    cbn [exec_loop]. unfold bind.
    change (exec_fragment run sql c k false s cur w0)
      with (exec_fragment run sql c k true s cur w0).
    destruct (exec_fragment run sql c k true s cur w0) as [[a|e] w1];
      [apply IH | reflexivity]. }
  unfold query_with_connection, cursor.
  apply bind_ext. intros k w0. apply try_finally_ext.
  apply bind_ext_l, H.
Qed.

(** ** Further properties of the connector *)

Lemma split_clean (sep : ascii) :
  forall x s, In s (PyStr.split sep x) -> PyStr.contains sep s = false.
Proof.
  induction x as [|ch x IH]; intros s Hin; cbn [PyStr.split] in Hin.
  - destruct Hin as [<-|[]]. reflexivity.
  - destruct (Ascii.eqb ch sep) eqn:Hc.
    + destruct Hin as [<-|Hin]; [reflexivity | now apply IH].
    + destruct (PyStr.split sep x) as [|fr frs] eqn:Hs.
      * destruct Hin as [<-|[]]. cbn. now rewrite Hc.
      * destruct Hin as [<-|Hin].
        -- cbn [PyStr.contains]. rewrite Hc. apply IH. now left.
        -- apply IH. now right.
Qed.

Lemma statements_clean (sql s : string) :
  In s (statements_of sql) ->
  PyStr.nonempty s = true /\ PyStr.contains ";" s = false.
Proof.
  unfold statements_of. intros Hin. apply filter_In in Hin as [Hin Hne].
  split; [exact Hne | exact (split_clean _ _ _ Hin)].
Qed.

Lemma run_stmts_app :
  forall pre rest st cur st1 cur1,
    run_stmts run pre st cur = (st1, Ret cur1) ->
    run_stmts run (pre ++ rest) st cur = run_stmts run rest st1 cur1.
Proof.
  induction pre as [|s pre IH]; intros rest st cur st1 cur1 H;
    cbn [run_stmts app] in *.
  - now injection H as <- <-.
  - destruct (run s st) as [st' d rows|e]; [|discriminate].
    now apply IH.
Qed.

Lemma stmt_ops_app (c : nat) :
  forall pre rest st cur st1 cur1,
    run_stmts run pre st cur = (st1, Ret cur1) ->
    stmt_ops run c (pre ++ rest) st
    = (flat_map (committed c) pre ++ stmt_ops run c rest st1)%list.
Proof.
  induction pre as [|s pre IH]; intros rest st cur st1 cur1 H;
    cbn [run_stmts stmt_ops app flat_map] in *.
  - now injection H as <- _.
  - destruct (run s st) as [st' d rows|e]; [|discriminate].
    cbn [committed app]. now rewrite (IH rest _ _ _ _ H).
Qed.

Lemma disk_everywhere (f : string) (w w' : World Store) (st : Store)
      (ops : list op) :
  evolves f w w' st ops -> st = disk w f -> forall g, disk w' g = disk w g.
Proof.
  intros (_ & D & F & _) -> g.
  destruct (String.eqb_spec g f) as [->|Hg]; auto.
Qed.


(** X2: on an open connection without a pending transaction, when the
    engine accepts every statement of the text, [query_with_connection]
    executes the non-empty fragments between the [;] of the stripped text,
    all of them and in order, each followed by a commit, whatever the
    [commit] argument; no executed statement is empty or holds a [;]; the
    file ends with the content the statements lead to, and the result is
    [None] or the table of the last result set. *)
Theorem query_with_connection_runs_all sql c parameters commit f
        (w : World Store) (st : Store) (cur : description * list row) :
  idle c f w ->
  run_stmts run (statements_of sql) (disk w f) (None, []) = (st, Ret cur) ->
  exists w',
    query_with_connection run temp_name sql c parameters commit w
    = (Ret (if falsy (fst cur) then None
            else Some (table_of_result (fst cur) (snd cur))), w')
    /\ db_ops (trace w')
       = (db_ops (trace w) ++ flat_map (committed c) (statements_of sql))%list
    /\ disk w' f = st
    /\ idle c f w'
    /\ (forall s, In s (statements_of sql) ->
                 PyStr.nonempty s = true /\ PyStr.contains ";" s = false).
Proof.
  intros Hc Hr.
  destruct (query_with_connection_spec sql parameters commit Hc)
    as (w' & E & V).
  cbv zeta in E, V. rewrite Hr in E, V. cbn [fst snd] in E, V.
  rewrite (stmt_ops_ok c _ _ _ Hr) in V.
  exists w'. split; [|split; [|split; [|split]]].
  - rewrite E. destruct cur as [[[|n names]|] rows]; reflexivity.
  - apply V.
  - apply V.
  - exact (idle_evolves Hc V).
  - intros s. apply statements_clean.
Qed.


Lemma lstrip_all_space (s : string) :
  PyStr.all_space s = true -> PyStr.lstrip s = EmptyString.
Proof.
  induction s as [|ch s IH]; cbn; [reflexivity|].
  intros H. apply andb_true_iff in H as [Hc Hs]. rewrite Hc. now apply IH.
Qed.

(** X4: for a text that is empty or all whitespace [query_with_connection]
    executes nothing and commits nothing: it opens and closes its cursor,
    returns [None] and leaves every file as it was. *)
Theorem query_with_connection_blank sql c parameters commit f
        (w : World Store) :
  idle c f w ->
  PyStr.all_space sql = true ->
  exists w',
    query_with_connection run temp_name sql c parameters commit w
    = (Ret None, w')
    /\ db_ops (trace w') = db_ops (trace w)
    /\ (forall g, disk w' g = disk w g)
    /\ conns w' = conns w.
Proof.
  intros Hc Hs.
  assert (E0 : statements_of sql = []).
  { unfold statements_of, PyStr.strip. now rewrite (lstrip_all_space _ Hs). }
  destruct (query_with_connection_spec sql parameters commit Hc)
    as (w' & E & V).
  cbv zeta in E, V. rewrite E0 in E, V.
  cbn [run_stmts stmt_ops fst snd result_of] in E, V.
  exists w'. split; [exact E|]. split; [|split].
  - destruct V as (_ & _ & _ & T). now rewrite T, app_nil_r.
  - exact (disk_everywhere V eq_refl).
  - apply V.
Qed.


Lemma same_files_refl (w : World Store) : same_files w w.
Proof. unfold same_files; auto. Qed.

Lemma same_files_trans (w1 w2 w3 : World Store) :
  same_files w1 w2 -> same_files w2 w3 -> same_files w1 w3.
Proof.
  intros (S1 & T1 & F1) (S2 & T2 & F2). repeat split; congruence.
Qed.

Lemma bind_files (A B : Type) (m : M Store A) (f : A -> M Store B) :
  (forall w, same_files w (snd (m w))) ->
  (forall a w, same_files w (snd (f a w))) ->
  forall w, same_files w (snd (bind m f w)).
Proof.
  intros Hm Hf w. unfold bind. specialize (Hm w).
  destruct (m w) as [[a|e] w1]; cbn [snd] in *; [|exact Hm].
  exact (same_files_trans Hm (Hf a w1)).
Qed.

Lemma log_files (l : level) (msg : string) (w : World Store) :
  same_files w (snd (log l msg w)).
Proof.
  unfold same_files, log, emit. cbn [snd spills temps trace].
  repeat split. rewrite temp_files_app. cbn. now rewrite app_nil_r.
Qed.

Lemma cursor_execute_files (c k : nat) (s : string) (w : World Store) :
  same_files w (snd (cursor_execute run c k s w)).
Proof.
  unfold cursor_execute, bind, emit, live, closed_error, raise.
  cbn [conns]. unfold same_files.
  destruct (nth_error (conns w) c) as [cn|];
    [destruct (c_closed cn); [|destruct (run s _)]|];
    cbn [snd spills temps trace set_conns]; repeat split;
    rewrite temp_files_app; cbn; now rewrite app_nil_r.
Qed.

Lemma connection_commit_files (c : nat) (w : World Store) :
  same_files w (snd (connection_commit c w)).
Proof.
  unfold connection_commit, emit, live, closed_error, raise, same_files.
  destruct (nth_error (conns w) c) as [cn|];
    [destruct (c_closed cn); [|destruct (c_pending cn)]|];
    cbn [snd spills temps trace set_conns set_disk]; repeat split;
    try (rewrite temp_files_app; cbn; now rewrite app_nil_r).
Qed.

Lemma exec_loop_files sql c k commit :
  forall frags cur (w : World Store),
    same_files w (snd (exec_loop run sql c k commit frags cur w)).
Proof.
  induction frags as [|s rest IH]; intros cur w; cbn [exec_loop].
  - apply same_files_refl.
  - apply bind_files; [|intros a w1; apply IH].
    intros w1. unfold exec_fragment.
    destruct (PyStr.nonempty s); [|apply same_files_refl].
    apply bind_files; [apply log_files|]. intros _ w2.
    apply bind_files; [apply cursor_execute_files|]. intros t w3.
    apply bind_files; [apply connection_commit_files|]. intros _ w4.
    apply same_files_refl.
Qed.

Lemma fetch_loop_files :
  forall fuel rows (w : World Store),
    same_files w (snd (fetch_loop fuel rows w)).
Proof.
  induction fuel as [|n IH]; intros rows w; cbn [fetch_loop].
  - apply same_files_refl.
  - destruct (firstn QUERY_BATCH_SIZE rows) as [|r batch];
      [apply same_files_refl|].
    apply bind_files; [apply log_files|]. intros _ w1.
    apply bind_files; [apply IH|]. intros more w2. apply same_files_refl.
Qed.

(** X6: what becomes of the result set of the last statement.  Without
    result columns, [query_with_connection] returns [None] and creates no
    temp file.  With result columns, it creates exactly one temp file,
    pickles the column names and then every row of the result set into it,
    in order and whatever their number, and returns the table of that
    file: header and rows are those the engine answered. *)
Theorem query_with_connection_spill sql c parameters commit f
        (w : World Store) (st : Store) (d : description) (rows : list row) :
  idle c f w ->
  run_stmts run (statements_of sql) (disk w f) (None, [])
  = (st, Ret (d, rows)) ->
  let r := query_with_connection run temp_name sql c parameters commit w in
  let t := table_of_result d rows in
  if falsy d then
    fst r = Ret None /\ same_files w (snd r)
  else
    fst r = Ret (Some t)
    /\ spills (snd r) = (temp_name (temps w), t) :: spills w
    /\ temps (snd r) = S (temps w)
    /\ temp_files (trace (snd r))
       = (temp_files (trace w) ++ [temp_name (temps w)])%list.
Proof.
  intros Hc Hr r t. subst r.
  destruct (query_with_connection run temp_name sql c parameters commit w)
    as [res wf] eqn:Eq. cbn [fst snd].
  unfold query_with_connection, cursor in Eq.
  destruct (cursor_open Hc) as (w0 & E0 & Q0).
  assert (F0 : same_files w w0).
  { replace w0 with (snd (connection_cursor c w)) by now rewrite E0.
    unfold connection_cursor, live, closed_error, raise, bind, emit, ret.
    unfold same_files.
    destruct (nth_error (conns w) c) as [cn|];
      [destruct (c_closed cn)|]; cbn [snd spills temps trace];
      repeat split; rewrite temp_files_app; cbn; now rewrite app_nil_r. }
  unfold bind at 1 in Eq. rewrite E0 in Eq. unfold try_finally in Eq.
  assert (D0 : disk w0 f = disk w f) by (destruct Q0 as (_ & -> & _); auto).
  destruct (exec_loop_spec sql (cursors w) commit
              (PyStr.split ";" (PyStr.strip sql)) (None, [])
              (idle_quiet Hc Q0)) as (w1 & E1 & _).
  cbv zeta in E1. rewrite D0 in E1. fold (statements_of sql) in E1.
  rewrite Hr in E1. cbn [snd] in E1.
  pose proof (exec_loop_files sql c (cursors w) commit
                (PyStr.split ";" (PyStr.strip sql)) (None, []) w0) as F1.
  rewrite E1 in F1. cbn [snd] in F1.
  unfold bind at 1 in Eq. rewrite E1 in Eq. cbn [fst snd] in Eq.
  destruct F0 as (A0 & B0 & C0), F1 as (A1 & B1 & C1).
  destruct (falsy d) eqn:Hd.
  - destruct (log_quiet DEBUG "Query returned 0 rows" w1) as (w2 & E2 & _).
    pose proof (log_files DEBUG "Query returned 0 rows" w1) as F2.
    rewrite E2 in F2. cbn [snd] in F2. destruct F2 as (A2 & B2 & C2).
    unfold bind at 1 in Eq. rewrite E2 in Eq. unfold ret in Eq.
    unfold cursor_close, emit in Eq. injection Eq as <- <-.
    split; [reflexivity|].
    unfold same_files. cbn [spills temps trace]. repeat split.
    + congruence.
    + congruence.
    + rewrite temp_files_app. cbn. rewrite app_nil_r. congruence.
  - unfold bind at 1, create_temp_file, bind at 1, emit, ret in Eq.
    cbn [fst snd disk conns cursors temps spills trace] in Eq.
    unfold bind at 1 in Eq.
    match type of Eq with
    | context [fetch_loop ?n rows ?w2] =>
        destruct (@fetch_loop_all n rows w2) as (w3 & E3 & _);
          [lia|];
        pose proof (fetch_loop_files n rows w2) as F3;
        rewrite E3 in F3; cbn [snd] in F3
    end.
    rewrite E3 in Eq.
    unfold bind, dump, log, emit, ret, cursor_close, emit in Eq.
    injection Eq as <- <-.
    destruct F3 as (A3 & B3 & C3).
    cbn [spills temps trace] in A3, B3, C3.
    cbn [spills temps trace]. unfold t, table_of_result.
    split; [reflexivity|]. split; [|split].
    + congruence.
    + congruence.
    + rewrite !temp_files_app. cbn. rewrite !app_nil_r, C3.
      rewrite temp_files_app. cbn. congruence.
Qed.

Lemma scope_closes (A : Type) (self : SQLite) (body : nat -> M Store A)
      (w : World Store) :
  live (List.length (conns w)) (snd (connection self body w)) = None.
Proof.
  destruct (connect_spec (file self) w) as (w1 & E1 & _).
  unfold connection, bind at 1. rewrite E1.
  unfold try_finally.
  match goal with
  | |- context [try_except ?b ?h ?k w1] =>
      destruct (try_except b h k w1) as [r w2]
  end.
  destruct (close_spec (List.length (conns w)) w2) as (w3 & E3 & L3 & _).
  rewrite E3. exact L3.
Qed.


(** X8: [table_exists] does not report a failing lookup as such.  For a
    name without [;], when the engine refuses the catalog lookup with a
    database error, the error is rolled back and suppressed by [query],
    which returns [None], and [table_exists] raises the [AttributeError] of
    [None.first]; another exception of the engine comes out as it is. *)
Theorem table_exists_failing_lookup (self : SQLite) (table_name : string)
        (w : World Store) (e : exn) :
  PyStr.contains ";" table_name = false ->
  run (lookup_sql table_name) (disk w (file self)) = RunErr e ->
  let c := List.length (conns w) in
  exists w',
    table_exists run temp_name self table_name w
    = (Raise (if is_sqlite_error e
              then AttributeError "'NoneType' object has no attribute 'first'"
              else e), w')
    /\ db_ops (trace w')
       = (db_ops (trace w)
            ++ OpConnect c (file self) :: OpExec c (lookup_sql table_name)
            :: (if is_sqlite_error e then [OpRollback c] else [])
            ++ [OpClose c])%list
    /\ (forall g, disk w' g = disk w g).
Proof.
  intros Hn Hr c.
  destruct (query_spec self (lookup_sql table_name) None w)
    as (w' & E & D & F & _ & _ & T).
  cbv zeta in E, D, T. rewrite (statements_of_lookup _ Hn) in E, D, T.
  cbn [run_stmts stmt_ops] in E, D, T. rewrite Hr in E, D, T.
  cbn [fst snd exit_ops] in E, D, T.
  unfold query_result, scope_result, result_of in E.
  exists w'. split; [|split].
  - unfold table_exists, bind. rewrite E.
    destruct (is_sqlite_error e); reflexivity.
  - rewrite T. fold c. destruct (is_sqlite_error e); reflexivity.
  - intros g. destruct (String.eqb_spec g (file self)) as [->|Hg]; auto.
Qed.

Lemma extends_refl (w : World Store) : extends w w.
Proof. unfold extends; auto. Qed.

Lemma extends_trans (w1 w2 w3 : World Store) :
  extends w1 w2 -> extends w2 w3 -> extends w1 w3.
Proof.
  intros (L1 & N1) (L2 & N2). split; [lia|].
  intros c Hc. rewrite N2, N1; auto. lia.
Qed.

Lemma extends_conns (w w' : World Store) :
  conns w' = conns w -> extends w w'.
Proof. intros E. unfold extends. rewrite E. auto. Qed.

Lemma idle_extends (c : nat) (f : string) (w w' : World Store) :
  idle c f w -> extends w w' -> idle c f w'.
Proof.
  intros Hc (_ & N). unfold idle in *. rewrite N; auto.
  now apply idle_below with (f := f).
Qed.

Lemma query_with_connection_extends sql c parameters commit f
      (w : World Store) :
  idle c f w ->
  extends w (snd (query_with_connection run temp_name sql c parameters
                                        commit w)).
Proof.
  intros Hc.
  destruct (query_with_connection_spec sql parameters commit Hc)
    as (w' & E & V).
  rewrite E. apply extends_conns, V.
Qed.

Lemma table_exists_extends (self : SQLite) (table_name : string)
      (w : World Store) :
  extends w (snd (table_exists run temp_name self table_name w)).
Proof.
  rewrite table_exists_world.
  destruct (query_spec self (lookup_sql table_name) None w)
    as (w' & E & _ & _ & N & L & _).
  rewrite E. cbn [snd]. split; [lia | exact N].
Qed.

Lemma log_extends (l : level) (msg : string) (w : World Store) :
  extends w (snd (log l msg w)).
Proof. apply extends_conns. reflexivity. Qed.

Lemma create_table_precheck_extends (self : SQLite) (c : nat)
      (table_name if_exists f : string) (w : World Store) :
  idle c f w ->
  extends w (snd (_create_table_precheck run temp_name self c table_name
                                         if_exists w)).
Proof.
  intros Hc. unfold _create_table_precheck.
  destruct (invalid_if_exists if_exists); [apply extends_refl|].
  pose proof (table_exists_extends self table_name w) as X1.
  unfold bind at 1.
  destruct (table_exists run temp_name self table_name w) as [[b|e] w1];
    cbn [snd] in *; [|exact X1].
  destruct b; [|exact X1].
  destruct (String.eqb if_exists "fail"); [exact X1|].
  destruct (String.eqb if_exists "drop"); [|exact X1].
  pose proof (query_with_connection_extends (drop_sql table_name) None true
                (idle_extends Hc X1)) as X2.
  unfold bind at 1.
  destruct (query_with_connection run temp_name (drop_sql table_name) c
                                  None true w1) as [[t|e] w2];
    cbn [snd] in *; [|exact (extends_trans X1 X2)].
  unfold bind.
  pose proof (log_extends INFO (table_name ++ " dropped.") w2) as X3.
  destruct (log INFO (table_name ++ " dropped.") w2) as [[u|e] w3];
    cbn [snd] in *; exact (extends_trans X1 (extends_trans X2 X3)).
Qed.

Lemma prepare_extends (self : SQLite) (c : nat) (tbl : Table)
      (table_name if_exists f : string) (w : World Store) :
  idle c f w ->
  extends w (snd (prepare' self c tbl table_name if_exists w)).
Proof.
  intros Hc. unfold prepare.
  pose proof (create_table_precheck_extends self table_name if_exists Hc)
    as X1.
  unfold bind at 1.
  destruct (_create_table_precheck run temp_name self c table_name
                                   if_exists w) as [[needed|e] w1];
    cbn [snd] in *; [|exact X1].
  destruct needed as [[|]|]; try exact X1.
  destruct (create_statement format_columns detect_data_type tbl table_name)
    as [sql tbl'].
  pose proof (query_with_connection_extends sql None true
                (idle_extends Hc X1)) as X2.
  unfold bind at 1.
  destruct (query_with_connection run temp_name sql c None true w1)
    as [[t|e] w2]; cbn [snd] in *; [|exact (extends_trans X1 X2)].
  unfold bind.
  pose proof (log_extends INFO ("Table " ++ table_name ++ " created.") w2)
    as X3.
  destruct (log INFO ("Table " ++ table_name ++ " created.") w2)
    as [[u|e] w3]; cbn [snd] in *;
    exact (extends_trans X1 (extends_trans X2 X3)).
Qed.

Lemma insert_loop_extends (c : nat) (f table_name : string) :
  forall chunks (w : World Store),
    idle c f w ->
    extends w (snd (insert_loop run temp_name c table_name chunks w)).
Proof.
  induction chunks as [|t rest IH]; intros w Hc; cbn [insert_loop].
  - apply extends_refl.
  - destruct (_insert_statement t table_name) as [sql|e];
      [|apply extends_refl].
    pose proof (query_with_connection_extends sql None true Hc) as X1.
    unfold bind.
    destruct (query_with_connection run temp_name sql c None true w)
      as [[r|e] w1]; cbn [snd] in *; [|exact X1].
    exact (extends_trans X1 (IH w1 (idle_extends Hc X1))).
Qed.

(** The body of the scope of [copy] leaves the connections it found as they
    were, its own open and idle. *)
Lemma copy_scope_extends (self : SQLite) (tbl : Table)
      (table_name if_exists f : string) (chunk_size c : nat)
      (w : World Store) :
  idle c f w ->
  extends w (snd (copy_scope' self tbl table_name if_exists chunk_size c w)).
Proof.
  intros Hc. unfold copy_scope.
  pose proof (prepare_extends self tbl table_name if_exists Hc) as X1.
  unfold bind at 1.
  destruct (prepare' self c tbl table_name if_exists w) as [[tbl'|e] w1];
    cbn [snd] in *; [|exact X1].
  unfold bind, tbl_chunk. destruct chunk_size as [|n]; [exact X1|].
  unfold ret.
  exact (extends_trans X1
           (insert_loop_extends table_name _ (idle_extends Hc X1))).
Qed.


(** X10: [copy] with [if_exists = "fail"] on a table that exists (and a
    table to copy with rows) raises ["Table already exists."]; nothing was
    executed on the connection of [copy], which is closed, and no file
    changed after the existence check. *)
Theorem copy_fails_on_existing_table (self : SQLite) (tbl : Table)
        (table_name : string) (chunk_size : nat) (w w2 : World Store) :
  let c := List.length (conns w) in
  Tbl.num_rows tbl <> 0 ->
  table_exists run temp_name self table_name
               (snd (sqlite3_connect (file self) w)) = (Ret true, w2) ->
  exists w',
    copy' self tbl table_name "fail" chunk_size w
    = (Raise (ValueError "Table already exists."), w')
    /\ db_ops (trace w') = (db_ops (trace w2) ++ [OpClose c])%list
    /\ disk w' = disk w2.
Proof.
  intros c Hn He.
  destruct (connect_spec (file self) w) as (w1 & E1 & C1 & D1 & T1).
  rewrite E1 in He. cbn [snd] in He.
  assert (H1 : idle c (file self) w1).
  { unfold idle. rewrite C1. apply nth_error_snoc. }
  pose proof (table_exists_idle self table_name H1) as H2.
  rewrite He in H2. cbn [snd] in H2.
  assert (Eb : copy_scope' self tbl table_name "fail" chunk_size c w1
               = (Raise (ValueError "Table already exists."), w2)).
  { unfold copy_scope, prepare, _create_table_precheck, bind.
    cbn [invalid_if_exists String.eqb Ascii.eqb Bool.eqb orb negb andb].
    rewrite He. reflexivity. }
  destruct (copy_from_scope self tbl table_name "fail" chunk_size
                            Hn E1 Eb H2) as (w' & E & D & T).
  exists w'. cbn [is_sqlite_error exit_ops] in E, T. auto.
Qed.

(** X11: an [if_exists] that is none of fail, append, drop is detected only
    for a table with rows: [copy] then opens its connection, raises
    ["Invalid value for `if_exists` argument"] before any lookup or
    statement, and closes the connection; for a table without rows it
    returns [None] without looking at [if_exists]. *)
Theorem copy_invalid_if_exists (self : SQLite) (tbl : Table)
        (table_name if_exists : string) (chunk_size : nat)
        (w : World Store) :
  invalid_if_exists if_exists = true ->
  let c := List.length (conns w) in
  let r := copy' self tbl table_name if_exists chunk_size w in
  (Tbl.num_rows tbl = 0 -> fst r = Ret tt)
  /\ (Tbl.num_rows tbl <> 0 ->
      fst r = Raise (ValueError "Invalid value for `if_exists` argument")
      /\ db_ops (trace (snd r))
         = (db_ops (trace w) ++ [OpConnect c (file self); OpClose c])%list
      /\ disk (snd r) = disk w).
Proof.
  intros Hi c r. split.
  - intros Hn. unfold r, copy. rewrite Hn. reflexivity.
  - intros Hn.
    destruct (connect_spec (file self) w) as (w1 & E1 & C1 & D1 & T1).
    assert (H1 : idle c (file self) w1).
    { unfold idle. rewrite C1. apply nth_error_snoc. }
    assert (Eb : copy_scope' self tbl table_name if_exists chunk_size c w1
                 = (Raise (ValueError
                             "Invalid value for `if_exists` argument"), w1)).
    { unfold copy_scope, prepare, _create_table_precheck, bind.
      rewrite Hi. reflexivity. }
    destruct (copy_from_scope self tbl table_name if_exists chunk_size
                              Hn E1 Eb H1) as (w' & E & D & T).
    unfold r. rewrite E. cbn [fst snd is_sqlite_error exit_ops] in *.
    split; [reflexivity|]. split; [|congruence].
    rewrite T, T1, db_ops_app, <- app_assoc. reflexivity.
Qed.

(** X12: [copy] with [if_exists = "append"] on a table that exists issues no
    DROP and no CREATE TABLE and leaves the header of the table to copy as
    it is: when the engine accepts the INSERTs, what it asks of its
    connection after the existence check is the statements of the chunks of
    the table as given, each followed by its commit, and the close. *)
Theorem copy_appends_to_existing_table (self : SQLite) (tbl : Table)
        (table_name : string) (chunk_size : nat) (w w2 : World Store)
        (st' : Store) :
  let c := List.length (conns w) in
  let f := file self in
  Tbl.num_rows tbl <> 0 ->
  chunk_size <> 0 ->
  table_exists run temp_name self table_name (snd (sqlite3_connect f w))
  = (Ret true, w2) ->
  inserted run table_name (Tbl.chunk chunk_size tbl) (disk w2 f) = Some st' ->
  exists w',
    copy' self tbl table_name "append" chunk_size w = (Ret tt, w')
    /\ db_ops (trace w')
       = (db_ops (trace w2)
            ++ flat_map (committed c)
                 (flat_map (chunk_statements table_name)
                           (Tbl.chunk chunk_size tbl))
            ++ [OpClose c])%list
    /\ disk w' f = st'.
Proof.
  intros c f Hn Hs He Hi.
  destruct (connect_spec f w) as (w1 & E1 & C1 & D1 & T1).
  rewrite E1 in He. cbn [snd] in He.
  assert (H1 : idle c f w1).
  { unfold idle. rewrite C1. apply nth_error_snoc. }
  pose proof (table_exists_idle self table_name H1) as H2.
  rewrite He in H2. cbn [snd] in H2.
  destruct (insert_loop_ok table_name _ H2 Hi) as (w3 & E3 & V3).
  assert (Eb : copy_scope' self tbl table_name "append" chunk_size c w1
               = (Ret tt, w3)).
  { unfold copy_scope, prepare, _create_table_precheck, bind.
    cbn [invalid_if_exists String.eqb Ascii.eqb Bool.eqb orb negb andb].
    rewrite He. unfold ret, tbl_chunk.
    destruct chunk_size; [contradiction|]. exact E3. }
  destruct (copy_from_scope self tbl table_name "append" chunk_size
                            Hn E1 Eb (idle_evolves H2 V3))
    as (w' & E & D & T).
  destruct V3 as (_ & D3 & _ & T3).
  exists w'. split; [exact E|]. split.
  - rewrite T, T3. cbn [exit_ops]. now rewrite <- app_assoc.
  - now rewrite D.
Qed.


(** X14: [_insert_statement] raises exactly when the table has one column
    and a row without any value, and what it raises is the [IndexError] of
    [row[0]]; a table with another number of columns is always rendered. *)
Theorem insert_statement_raises (tbl : Table) (table_name : string) :
  match _insert_statement tbl table_name with
  | Raise e =>
      e = IndexError "tuple index out of range"
      /\ List.length (columns tbl) = 1 /\ In [] (data tbl)
  | Ret _ => List.length (columns tbl) = 1 -> ~ In [] (data tbl)
  end.
Proof.
  unfold _insert_statement.
  assert (H : match single_values (data tbl) with
              | Raise e =>
                  e = IndexError "tuple index out of range"
                  /\ In [] (data tbl)
              | Ret _ => ~ In [] (data tbl)
              end).
  { induction (data tbl) as [|r rows IH]; cbn [single_values].
    - intros [].
    - destruct r as [|v r]; cbn [single_value].
      + split; [reflexivity | now left].
      + destruct (single_values rows) as [vs|e].
        * intros [Hx|Hx]; [discriminate | contradiction].
        * destruct IH as [-> Hin]. split; [reflexivity | now right]. }
  destruct (Nat.eqb_spec (List.length (columns tbl)) 1) as [H1|H1].
  - destruct (single_values (data tbl)) as [vs|e].
    + intros _. exact H.
    + destruct H as [-> Hin]. auto.
  - intros Hx. contradiction.
Qed.

(** X15: [copy] with [if_exists = "drop"] does not put the old table back.
    When the table exists, the engine accepts the DROP TABLE and then
    refuses the CREATE TABLE, the DROP was committed before the CREATE was
    tried: the rollback undoes nothing of it, no INSERT is executed, and
    the file keeps the content it had after the DROP. *)
Theorem copy_drop_is_not_undone (self : SQLite) (tbl tbl' : Table)
        (table_name sql_create s : string) (more : list string)
        (chunk_size : nat) (w w2 : World Store) (st : Store)
        (cur : description * list row) (e : exn) :
  let c := List.length (conns w) in
  let f := file self in
  Tbl.num_rows tbl <> 0 ->
  table_exists run temp_name self table_name (snd (sqlite3_connect f w))
  = (Ret true, w2) ->
  run_stmts run (statements_of (drop_sql table_name)) (disk w2 f) (None, [])
  = (st, Ret cur) ->
  create_statement format_columns detect_data_type tbl table_name
  = (sql_create, tbl') ->
  statements_of sql_create = s :: more ->
  run s st = RunErr e ->
  exists w',
    copy' self tbl table_name "drop" chunk_size w
    = (if is_sqlite_error e then Ret tt else Raise e, w')
    /\ disk w' f = st
    /\ db_ops (trace w')
       = (db_ops (trace w2)
            ++ flat_map (committed c) (statements_of (drop_sql table_name))
            ++ OpExec c s
            :: (if is_sqlite_error e then [OpRollback c] else [])
            ++ [OpClose c])%list.
Proof.
  intros c f Hn He Hd Hcs Hst Hr.
  destruct (connect_spec f w) as (w1 & E1 & C1 & D1 & T1).
  rewrite E1 in He. cbn [snd] in He.
  assert (H1 : idle c f w1).
  { unfold idle. rewrite C1. apply nth_error_snoc. }
  pose proof (table_exists_idle self table_name H1) as H2.
  rewrite He in H2. cbn [snd] in H2.
  destruct (query_with_connection_spec (drop_sql table_name) None true H2)
    as (w3 & E3 & V3).
  cbv zeta in E3, V3. rewrite Hd in E3, V3. cbn [fst snd] in E3, V3.
  rewrite (stmt_ops_ok c _ _ _ Hd) in V3.
  destruct (log_quiet INFO (table_name ++ " dropped.") w3) as (w4 & E4 & Q4).
  pose proof (evolves_quiet V3 Q4) as V4.
  pose proof (idle_evolves H2 V4) as H4.
  destruct (query_with_connection_spec sql_create None true H4)
    as (w5 & E5 & V5).
  cbv zeta in E5, V5.
  assert (D4 : disk w4 f = st) by apply V4.
  rewrite D4, Hst in E5, V5. cbn [run_stmts stmt_ops] in E5, V5.
  rewrite Hr in E5, V5. cbn [fst snd result_of] in E5, V5.
  assert (Eb : copy_scope' self tbl table_name "drop" chunk_size c w1
               = (Raise e, w5)).
  { unfold copy_scope, prepare, _create_table_precheck.
    cbn [invalid_if_exists String.eqb Ascii.eqb Bool.eqb orb negb andb].
    unfold bind at 1. unfold bind at 1. unfold bind at 1. rewrite He.
    unfold bind at 1. rewrite E3. destruct cur as [d rows].
    cbn [result_of]. unfold bind at 1. rewrite E4. unfold ret.
    rewrite Hcs. unfold bind at 1. rewrite E5. reflexivity. }
  pose proof (evolves_trans V4 V5) as V.
  destruct (copy_from_scope self tbl table_name "drop" chunk_size
                            Hn E1 Eb (idle_evolves H2 V))
    as (w' & E & D & T).
  destruct V as (_ & DV & _ & TV).
  exists w'. split; [exact E|]. split; [now rewrite D|].
  rewrite T, TV. cbn [exit_ops]. rewrite <- !app_assoc. cbn [app].
  destruct (is_sqlite_error e); reflexivity.
Qed.

(** X16: each call of [query] opens a connection of its own, and what one
    call committed is what the next call finds, also through another
    instance bound to the same file: the statements of the second text run
    on the content the first call left, which is the content after the
    statements of the first text that went through. *)
Theorem query_sees_what_query_committed (a b : SQLite) (sql1 sql2 : string)
        (p1 p2 : option (list value)) (w : World Store) :
  file a = file b ->
  let f := file a in
  let r1 := run_stmts run (statements_of sql1) (disk w f) (None, []) in
  let w1 := snd (query run temp_name a sql1 p1 w) in
  let r2 := run_stmts run (statements_of sql2) (fst r1) (None, []) in
  disk w1 f = fst r1
  /\ fst (query run temp_name b sql2 p2 w1) = query_result (snd r2)
  /\ disk (snd (query run temp_name b sql2 p2 w1)) f = fst r2.
Proof.
  intros Hf f r1 w1 r2.
  destruct (query_spec a sql1 p1 w) as (wa & Ea & Da & _).
  cbv zeta in Ea, Da. fold f in Ea, Da. fold r1 in Ea, Da.
  assert (Hw1 : w1 = wa) by (unfold w1; now rewrite Ea).
  destruct (query_spec b sql2 p2 w1) as (wb & Eb & Db & _).
  cbv zeta in Eb, Db. rewrite <- Hf in Eb, Db. fold f in Eb, Db.
  rewrite Hw1 in Eb, Db. rewrite Da in Eb, Db. fold r2 in Eb, Db.
  rewrite Hw1. split; [exact Da|]. rewrite Eb. cbn [fst snd]. auto.
Qed.

Lemma insert_statement_error (t : Table) (table_name : string) (e : exn) :
  _insert_statement t table_name = Raise e ->
  e = IndexError "tuple index out of range".
Proof.
  unfold _insert_statement.
  assert (H : forall rows, single_values rows = Raise e ->
                           e = IndexError "tuple index out of range").
  { induction rows as [|r rows IH]; cbn [single_values]; [discriminate|].
    destruct r as [|v r]; cbn [single_value]; [now intros [= <-]|].
    destruct (single_values rows) as [vs|e0]; [discriminate|].
    intros [= <-]. now apply IH. }
  destruct (List.length (columns t) =? 1)%nat; [|discriminate].
  destruct (single_values (data t)) as [vs|e0] eqn:Hs; [discriminate|].
  intros [= <-]. now apply H with (rows := data t).
Qed.

Lemma insert_loop_unrendered (c : nat) (f table_name : string) :
  forall done t rest e (w : World Store) st,
    idle c f w ->
    inserted run table_name done (disk w f) = Some st ->
    _insert_statement t table_name = Raise e ->
    exists w',
      insert_loop run temp_name c table_name (done ++ t :: rest) w
      = (Raise e, w')
      /\ evolves f w w' st
           (flat_map (committed c)
                     (flat_map (chunk_statements table_name) done)).
Proof.
  induction done as [|d done IH]; intros t rest e w st Hc Hi Ht;
    simpl in *.
  - injection Hi as <-. rewrite Ht.
    exists w. split; [reflexivity | apply evolves_refl].
  - unfold chunk_statements at 1.
    destruct (_insert_statement d table_name) as [sqld|ed]; [|discriminate].
    destruct (query_with_connection_spec sqld None true Hc)
      as (w1 & E1 & V1).
    cbv zeta in E1, V1.
    destruct (run_stmts run (statements_of sqld) (disk w f) (None, []))
      as [st1 [cur1|e1]] eqn:Hd; [|discriminate].
    cbn [fst snd] in E1, V1.
    rewrite (stmt_ops_ok c _ _ _ Hd) in V1.
    unfold bind. rewrite E1. destruct cur1 as [dd rows]. cbn [result_of].
    assert (D1 : disk w1 f = st1) by apply V1.
    rewrite <- D1 in Hi.
    destruct (IH t rest e w1 st (idle_evolves Hc V1) Hi Ht)
      as (w2 & E2 & V2).
    exists w2. split; [exact E2|].
    rewrite flat_map_app. exact (evolves_trans V1 V2).
Qed.

(** X17: an error that is not a database error is not suppressed.  When
    the first chunks are inserted and the next chunk cannot be rendered (a
    row without a value in a table of one column), [copy] raises the
    [IndexError]; the chunks before it were executed and committed and stay
    in the file, no rollback is issued, and the connection is closed. *)
Theorem copy_raises_index_error (self : SQLite) (tbl tbl' : Table)
        (table_name if_exists : string) (chunk_size : nat)
        (done rest : list Table) (t : Table)
        (w w2 : World Store) (st : Store) (e : exn) :
  let c := List.length (conns w) in
  let f := file self in
  Tbl.num_rows tbl <> 0 ->
  chunk_size <> 0 ->
  prepare' self c tbl table_name if_exists (snd (sqlite3_connect f w))
  = (Ret tbl', w2) ->
  Tbl.chunk chunk_size tbl' = (done ++ t :: rest)%list ->
  inserted run table_name done (disk w2 f) = Some st ->
  _insert_statement t table_name = Raise e ->
  exists w',
    copy' self tbl table_name if_exists chunk_size w
    = (Raise (IndexError "tuple index out of range"), w')
    /\ disk w' f = st
    /\ db_ops (trace w')
       = (db_ops (trace w2)
            ++ flat_map (committed c)
                 (flat_map (chunk_statements table_name) done)
            ++ [OpClose c])%list.
Proof.
  intros c f Hn Hs Hp Hch Hi Ht.
  pose proof (insert_statement_error _ _ Ht) as ->.
  destruct (connect_spec f w) as (w1 & E1 & C1 & D1 & T1).
  rewrite E1 in Hp. cbn [snd] in Hp.
  assert (H1 : idle c f w1).
  { unfold idle. rewrite C1. apply nth_error_snoc. }
  pose proof (prepare_idle self tbl table_name if_exists H1) as H2.
  rewrite Hp in H2. cbn [snd] in H2.
  destruct (insert_loop_unrendered table_name done t rest H2 Hi Ht)
    as (w3 & E3 & V3).
  assert (Eb : copy_scope' self tbl table_name if_exists chunk_size c w1
               = (Raise (IndexError "tuple index out of range"), w3)).
  { unfold copy_scope, bind at 1. rewrite Hp.
    unfold bind, tbl_chunk. destruct chunk_size; [contradiction|].
    unfold ret. rewrite Hch. exact E3. }
  destruct (copy_from_scope self tbl table_name if_exists chunk_size
                            Hn E1 Eb (idle_evolves H2 V3))
    as (w' & E & D & T).
  destruct V3 as (_ & D3 & _ & T3).
  exists w'. cbn [is_sqlite_error exit_ops] in E, T.
  split; [exact E|]. split; [now rewrite D|].
  rewrite T, T3. now rewrite <- app_assoc.
Qed.

End Facts.

(** ** Concrete runs *)

Lemma at_result (A W : Type) (x : outcome A * W) (a : outcome A) :
  fst x = a -> x = (a, snd x).
Proof. destruct x; simpl; congruence. Qed.

(** C1: a SELECT that matches no row still has result columns, so its
    description is set; [query_with_connection] then creates a spill file,
    writes the header to it and returns a table without rows, where the
    docstring promises [None]. *)
Theorem zero_rows_give_an_empty_table :
  let sql := "SELECT name FROM people WHERE name = 'nobody'" in
  let r := query_with_connection
             (Scripted.run [(sql, Scripted.Rows (Some ["name"]) [])])
             Scripted.temp_name sql 0 None true Scripted.opened in
  fst r = Ret (Some (mkTable ["name"] []))
  /\ temp_files (trace (snd r)) = ["/tmp/tmp0"]
  /\ spills (snd r) = [("/tmp/tmp0", mkTable ["name"] [])].
Proof. vm_compute. repeat split. Qed.

(** C2: with [commit=False] each of the two statements is committed all the
    same, right after it is executed, and the file holds both. *)
Theorem commit_false_still_commits :
  let sql := "INSERT INTO t VALUES (1); INSERT INTO t VALUES (2);" in
  let r := query_with_connection (Scripted.run []) Scripted.temp_name
                                 sql 0 None false Scripted.opened in
  fst r = Ret None
  /\ db_ops (trace (snd r))
     = [OpConnect 0 "db.sqlite";
        OpExec 0 "INSERT INTO t VALUES (1)"; OpCommit 0;
        OpExec 0 " INSERT INTO t VALUES (2)"; OpCommit 0]
  /\ disk (snd r) "db.sqlite"
     = ["INSERT INTO t VALUES (1)"; " INSERT INTO t VALUES (2)"].
Proof. vm_compute. repeat split. Qed.

(** C3, as the claim has it, fails: a statement that the engine refuses with
    a database error is rolled back and the connection closed, but the error
    stops at the scope, which is left normally; [query] then returns
    [None]. *)
Lemma database_error_stops_at_the_scope :
  let run := Scripted.run
               [("SELECT 1", Scripted.Fails (SqliteError "database is locked"))]
  in
  let body := fun c => query_with_connection run Scripted.temp_name "SELECT 1"
                                             c None true in
  let r := connection Scripted.db body Scripted.start in
  fst (body 0 Scripted.opened) = Raise (SqliteError "database is locked")
  /\ fst r = Ret None
  /\ raises (fst r) = false
  /\ db_ops (trace (snd r))
     = [OpConnect 0 "db.sqlite"; OpExec 0 "SELECT 1"; OpRollback 0; OpClose 0]
  /\ fst (query run Scripted.temp_name Scripted.db "SELECT 1" None
                 Scripted.start) = Ret None.
Proof. vm_compute. repeat split. Qed.

(** C5, as the claim has it, fails: LIKE does not tell letter case apart, so
    for the name [foo] the catalog lookup finds the row of the table [Foo];
    [table_exists] compares that row with the name as given and returns
    false although a matching catalog row was found. *)
Lemma table_exists_misses_a_matching_row :
  let run := Scripted.run
               [(lookup_sql "foo", Scripted.Rows (Some ["name"]) [[VStr "Foo"]])]
  in
  fst (query run Scripted.temp_name Scripted.db (lookup_sql "foo") None
             Scripted.start)
  = Ret (Some (mkTable ["name"] [[VStr "Foo"]]))
  /\ fst (table_exists run Scripted.temp_name Scripted.db "foo"
                       Scripted.start) = Ret false.
Proof. vm_compute. repeat split. Qed.

(** C6, as the claim has it, fails: the one row of [crafted] makes one chunk
    whose INSERT text holds two statements, and both are executed; and when
    the table exists under [if_exists = "fail"] no INSERT is executed at all
    for the five rows of [letters]. *)
Lemma copy_two_inserts_for_one_chunk :
  let copy := copy (Store := Scripted.Store) in
  let r := copy (Scripted.run [Scripted.absent "t"]) Scripted.temp_name
                Scripted.format_columns Scripted.detect_data_type
                Scripted.db Scripted.crafted "t" "fail" 1 Scripted.start in
  let r' := copy (Scripted.run [Scripted.present "t"]) Scripted.temp_name
                 Scripted.format_columns Scripted.detect_data_type
                 Scripted.db Scripted.letters "t" "fail" 2 Scripted.start in
  Tbl.num_rows Scripted.crafted = 1
  /\ List.length (Tbl.chunk 1 Scripted.crafted) = 1
  /\ fst r = Ret tt
  /\ inserts (db_ops (trace (snd r)))
     = ["INSERT INTO t" ++ PyStr.nl ++ indent ++ "(c)" ++ PyStr.nl
          ++ indent ++ "VALUES (1)";
        "INSERT INTO t (c) VALUES (2)"]
  /\ Tbl.num_rows Scripted.letters = 5
  /\ fst r' = Raise (ValueError "Table already exists.")
  /\ inserts (db_ops (trace (snd r'))) = [].
Proof. vm_compute. repeat split. Qed.

(** ** The theorems at concrete inputs *)


(** C5 at a catalog that answers the lookup of [t] with the row [t]. *)
Lemma table_exists_exact_match_witness :
  let run := Scripted.run [Scripted.present "t"] in
  PyStr.contains ";" "t" = false
  /\ run (lookup_sql "t") (disk Scripted.start (file Scripted.db))
     = RunOk [] (Some ["name"]) [[VStr "t"]]
  /\ exists w',
      table_exists run Scripted.temp_name Scripted.db "t" Scripted.start
      = (Ret true, w').
Proof.
  intros run.
  assert (H1 : PyStr.contains ";" "t" = false) by reflexivity.
  assert (H2 : run (lookup_sql "t") (disk Scripted.start (file Scripted.db))
               = RunOk [] (Some ["name"]) [[VStr "t"]]) by reflexivity.
  split; [exact H1|]. split; [exact H2|].
  destruct (@table_exists_exact_match _ run Scripted.temp_name Scripted.db
              "t" Scripted.start [] (Some ["name"]) [[VStr "t"]]
              H1 H2 eq_refl) as (b & w' & E & Hb & _).
  exists w'. rewrite E, Hb. reflexivity.
Defined.

(** C7 at a table of one column and no row. *)
Lemma copy_empty_table_witness :
  let r := copy (Scripted.run []) Scripted.temp_name Scripted.format_columns
                Scripted.detect_data_type Scripted.db (mkTable ["c"] [])
                "t" "fail" 1000 Scripted.start in
  Tbl.num_rows (mkTable ["c"] []) = 0
  /\ fst r = Ret tt
  /\ trace (snd r)
     = [Log INFO "Parsons table is empty. Table will not be created."]
  /\ db_ops (trace (snd r)) = [].
Proof.
  intros r.
  assert (H : Tbl.num_rows (mkTable ["c"] []) = 0) by reflexivity.
  destruct (@copy_empty_table _ (Scripted.run []) Scripted.temp_name
              Scripted.format_columns Scripted.detect_data_type Scripted.db
              (mkTable ["c"] []) "t" "fail" 1000 Scripted.start H)
    as [E T].
  split; [exact H|]. subst r. rewrite E. repeat split.
Defined.

(** C6 at the five rows of [letters] in chunks of two: three INSERTs, of 2, 2
    and 1 rows. *)
Lemma copy_one_insert_per_chunk_witness :
  let run := Scripted.run [Scripted.absent "t"] in
  exists w',
    copy run Scripted.temp_name Scripted.format_columns
         Scripted.detect_data_type Scripted.db Scripted.letters "t" "fail" 2
         Scripted.start = (Ret tt, w')
    /\ map Tbl.num_rows (Tbl.chunk 2 Scripted.letters) = [2; 2; 1]
    /\ inserts (db_ops (trace w'))
       = map (fun t => hd "" (chunk_statements "t" t))
             (Tbl.chunk 2 Scripted.letters)
    /\ List.length (inserts (db_ops (trace w'))) = 3.
Proof.
  intros run.
  pose (w2 := snd (prepare run Scripted.temp_name Scripted.format_columns
                           Scripted.detect_data_type Scripted.db 0
                           Scripted.letters "t" "fail"
                           (snd (sqlite3_connect (file Scripted.db)
                                                 Scripted.start)))).
  assert (Hn : Tbl.num_rows Scripted.letters <> 0) by (vm_compute; lia).
  assert (Hs : 2 <> 0) by lia.
  assert (Hp : prepare run Scripted.temp_name Scripted.format_columns
                       Scripted.detect_data_type Scripted.db
                       (List.length (conns Scripted.start))
                       Scripted.letters "t" "fail"
                       (snd (sqlite3_connect (file Scripted.db)
                                             Scripted.start))
               = (Ret Scripted.letters, w2))
    by (apply at_result; vm_compute; reflexivity).
  assert (Hone : Forall (fun t => exists s, chunk_statements "t" t = [s])
                        (Tbl.chunk 2 Scripted.letters)).
  { apply Forall_forall. intros t Ht. vm_compute in Ht.
    destruct Ht as [<-|[<-|[<-|[]]]]; eexists; vm_compute; reflexivity. }
  assert (Hi : inserted run "t" (Tbl.chunk 2 Scripted.letters)
                        (disk w2 (file Scripted.db))
               = Some (statements_of
                         (fst (create_statement Scripted.format_columns
                                 Scripted.detect_data_type Scripted.letters
                                 "t"))
                         ++ flat_map (chunk_statements "t")
                                     (Tbl.chunk 2 Scripted.letters))%list)
    by (vm_compute; reflexivity).
  destruct (@copy_one_insert_per_chunk _ run Scripted.temp_name
              Scripted.format_columns Scripted.detect_data_type Scripted.db
              Scripted.letters Scripted.letters "t" "fail" 2 Scripted.start
              w2 _ Hn Hs Hp Hone Hi) as (w' & E & T & _ & S & _).
  exists w'. split; [exact E|]. split; [exact S|].
  rewrite T. split; vm_compute; reflexivity.
Defined.


(** C10 at the five rows of [letters] in chunks of two, the engine refusing
    the third INSERT: the table and the first four rows stay in the file. *)
Lemma copy_not_atomic_witness :
  let run := Scripted.run Scripted.full in
  let create := "CREATE TABLE t ( " ++ PyStr.nl ++ " n int " ++ PyStr.nl
                  ++ ",s varchar " ++ PyStr.nl ++ ")" in
  let first := "INSERT INTO t" ++ PyStr.nl ++ indent ++ "(n,s)" ++ PyStr.nl
                 ++ indent ++ "VALUES (1, 'a'),(2, 'b')" in
  let second := "INSERT INTO t" ++ PyStr.nl ++ indent ++ "(n,s)" ++ PyStr.nl
                  ++ indent ++ "VALUES (3, 'c'),(4, 'd')" in
  run Scripted.refused [create; first; second]
  = RunErr (SqliteError "database or disk is full")
  /\ exists w',
      copy run Scripted.temp_name Scripted.format_columns
           Scripted.detect_data_type Scripted.db Scripted.letters "t" "fail" 2
           Scripted.start = (Ret tt, w')
      /\ disk w' "db.sqlite" = [create; first; second]
      /\ skipn 5 (db_ops (trace w'))
         = [OpExec 0 create; OpCommit 0; OpExec 0 first; OpCommit 0;
            OpExec 0 second; OpCommit 0; OpExec 0 Scripted.refused;
            OpRollback 0; OpClose 0].
Proof.
  intros run create first second.
  assert (He : run Scripted.refused [create; first; second]
               = RunErr (SqliteError "database or disk is full"))
    by reflexivity.
  split; [exact He|].
  pose (wp := snd (_create_table_precheck run Scripted.temp_name Scripted.db 0
                     "t" "fail"
                     (snd (sqlite3_connect (file Scripted.db)
                                           Scripted.start)))).
  assert (Hn : Tbl.num_rows Scripted.letters <> 0) by (vm_compute; lia).
  assert (Hs : 2 <> 0) by lia.
  assert (Hp : _create_table_precheck run Scripted.temp_name Scripted.db
                 (List.length (conns Scripted.start)) "t" "fail"
                 (snd (sqlite3_connect (file Scripted.db) Scripted.start))
               = (Ret (Some true), wp))
    by (apply at_result; vm_compute; reflexivity).
  assert (Hc : create_statement Scripted.format_columns
                 Scripted.detect_data_type Scripted.letters "t"
               = (create ++ ";", Scripted.letters)) by reflexivity.
  assert (Hr : run_stmts run (statements_of (create ++ ";"))
                         (disk wp (file Scripted.db)) (None, [])
               = ([create], Ret (None, []))) by (vm_compute; reflexivity).
  assert (Hch : Tbl.chunk 2 Scripted.letters
                = ([mkTable ["n"; "s"] [[VInt 1; VStr "a"]; [VInt 2; VStr "b"]];
                    mkTable ["n"; "s"] [[VInt 3; VStr "c"]; [VInt 4; VStr "d"]]]
                     ++ mkTable ["n"; "s"] [[VInt 5; VStr "e"]] :: [])%list)
    by reflexivity.
  assert (Hi : inserted run "t"
                 [mkTable ["n"; "s"] [[VInt 1; VStr "a"]; [VInt 2; VStr "b"]];
                  mkTable ["n"; "s"] [[VInt 3; VStr "c"]; [VInt 4; VStr "d"]]]
                 [create]
               = Some [create; first; second]) by (vm_compute; reflexivity).
  assert (Ht : _insert_statement (mkTable ["n"; "s"] [[VInt 5; VStr "e"]]) "t"
               = Ret (Scripted.refused ++ ";")) by reflexivity.
  assert (Hst : statements_of (Scripted.refused ++ ";")
                = [Scripted.refused]) by (vm_compute; reflexivity).
  destruct (@copy_not_atomic _ run Scripted.temp_name Scripted.format_columns
              Scripted.detect_data_type Scripted.db Scripted.letters
              Scripted.letters "t" "fail" (create ++ ";")
              (Scripted.refused ++ ";") Scripted.refused [] 2 _ _ _
              Scripted.start wp [create] [create; first; second] (None, [])
              (SqliteError "database or disk is full")
              Hn Hs Hp Hc Hr Hch Hi Ht Hst He) as (w' & E & D & T).
  exists w'. split; [exact E|]. split; [exact D|].
  rewrite T. vm_compute. reflexivity.
Defined.

(** ** The further properties at concrete inputs *)

(** X2 at two INSERTs in one text. *)
Lemma query_with_connection_runs_all_witness :
  let sql := "INSERT INTO t VALUES (1); INSERT INTO t VALUES (2);" in
  idle 0 "db.sqlite" Scripted.opened
  /\ exists w',
      query_with_connection (Scripted.run []) Scripted.temp_name sql 0 None
                            false Scripted.opened = (Ret None, w')
      /\ disk w' "db.sqlite"
         = ["INSERT INTO t VALUES (1)"; " INSERT INTO t VALUES (2)"].
Proof.
  intros sql.
  assert (Hc : idle 0 "db.sqlite" Scripted.opened) by reflexivity.
  split; [exact Hc|].
  assert (Hr : run_stmts (Scripted.run []) (statements_of sql)
                         (disk Scripted.opened "db.sqlite") (None, [])
               = (["INSERT INTO t VALUES (1)"; " INSERT INTO t VALUES (2)"],
                  Ret (None, []))) by (vm_compute; reflexivity).
  destruct (@query_with_connection_runs_all _ (Scripted.run [])
              Scripted.temp_name sql 0 None false "db.sqlite"
              Scripted.opened _ _ Hc Hr) as (w' & E & _ & D & _).
  exists w'. split; [exact E | exact D].
Defined.


(** X4 at a text of blanks and a line feed. *)
Lemma query_with_connection_blank_witness :
  let sql := "  " ++ PyStr.nl ++ " " in
  PyStr.all_space sql = true
  /\ exists w',
      query_with_connection (Scripted.run []) Scripted.temp_name sql 0 None
                            true Scripted.opened = (Ret None, w')
      /\ db_ops (trace w') = [OpConnect 0 "db.sqlite"].
Proof.
  intros sql.
  assert (Hc : idle 0 "db.sqlite" Scripted.opened) by reflexivity.
  assert (Hs : PyStr.all_space sql = true) by reflexivity.
  split; [exact Hs|].
  destruct (@query_with_connection_blank _ (Scripted.run [])
              Scripted.temp_name sql 0 None true "db.sqlite" Scripted.opened
              Hc Hs) as (w' & E & T & _).
  exists w'. split; [exact E|]. rewrite T. reflexivity.
Defined.


(** X6 at a lookup that finds one row. *)
Lemma query_with_connection_spill_witness :
  let run := Scripted.run [Scripted.present "t"] in
  let r := query_with_connection run Scripted.temp_name (lookup_sql "t") 0
                                 None true Scripted.opened in
  run_stmts run (statements_of (lookup_sql "t"))
            (disk Scripted.opened "db.sqlite") (None, [])
  = ([], Ret (Some ["name"], [[VStr "t"]]))
  /\ fst r = Ret (Some (mkTable ["name"] [[VStr "t"]]))
  /\ spills (snd r) = [("/tmp/tmp0", mkTable ["name"] [[VStr "t"]])]
  /\ temp_files (trace (snd r)) = ["/tmp/tmp0"].
Proof.
  intros run r.
  assert (Hc : idle 0 "db.sqlite" Scripted.opened) by reflexivity.
  assert (Hr : run_stmts run (statements_of (lookup_sql "t"))
                         (disk Scripted.opened "db.sqlite") (None, [])
               = ([], Ret (Some ["name"], [[VStr "t"]])))
    by (vm_compute; reflexivity).
  split; [exact Hr|].
  destruct (@query_with_connection_spill _ run Scripted.temp_name
              (lookup_sql "t") 0 None true "db.sqlite" Scripted.opened
              _ _ _ Hc Hr) as (E & S & _ & F).
  split; [exact E|]. split; [exact S | exact F].
Defined.

(** X8 at a lookup on a locked database. *)
Lemma table_exists_failing_lookup_witness :
  let run := Scripted.run
               [(lookup_sql "t",
                 Scripted.Fails (SqliteError "database is locked"))] in
  PyStr.contains ";" "t" = false
  /\ exists w',
      table_exists run Scripted.temp_name Scripted.db "t" Scripted.start
      = (Raise (AttributeError "'NoneType' object has no attribute 'first'"),
         w')
      /\ db_ops (trace w')
         = [OpConnect 0 "db.sqlite"; OpExec 0 (lookup_sql "t");
            OpRollback 0; OpClose 0].
Proof.
  intros run.
  assert (Hn : PyStr.contains ";" "t" = false) by reflexivity.
  assert (Hr : run (lookup_sql "t") (disk Scripted.start (file Scripted.db))
               = RunErr (SqliteError "database is locked")) by reflexivity.
  split; [exact Hn|].
  destruct (@table_exists_failing_lookup _ run Scripted.temp_name
              Scripted.db "t" Scripted.start _ Hn Hr) as (w' & E & T & _).
  exists w'. split; [exact E|]. rewrite T. reflexivity.
Defined.


(** X10 at a catalog that has the table [t]. *)
Lemma copy_fails_on_existing_table_witness :
  let run := Scripted.run [Scripted.present "t"] in
  exists w',
    copy run Scripted.temp_name Scripted.format_columns
         Scripted.detect_data_type Scripted.db Scripted.letters "t" "fail" 2
         Scripted.start
    = (Raise (ValueError "Table already exists."), w')
    /\ inserts (db_ops (trace w')) = []
    /\ disk w' "db.sqlite" = [].
Proof.
  intros run.
  pose (w2 := snd (table_exists run Scripted.temp_name Scripted.db "t"
                                (snd (sqlite3_connect (file Scripted.db)
                                                      Scripted.start)))).
  assert (Hn : Tbl.num_rows Scripted.letters <> 0) by (vm_compute; lia).
  assert (He : table_exists run Scripted.temp_name Scripted.db "t"
                            (snd (sqlite3_connect (file Scripted.db)
                                                  Scripted.start))
               = (Ret true, w2))
    by (apply at_result; vm_compute; reflexivity).
  destruct (@copy_fails_on_existing_table _ run Scripted.temp_name
              Scripted.format_columns Scripted.detect_data_type Scripted.db
              Scripted.letters "t" 2 Scripted.start w2 Hn He)
    as (w' & E & T & D).
  exists w'. split; [exact E|]. split.
  - rewrite T. vm_compute. reflexivity.
  - rewrite D. vm_compute. reflexivity.
Defined.

(** X11 at the value [truncate], which the docstring of [copy] lists. *)
Lemma copy_invalid_if_exists_witness :
  let copy := copy (Scripted.run []) Scripted.temp_name
                   Scripted.format_columns Scripted.detect_data_type
                   Scripted.db in
  invalid_if_exists "truncate" = true
  /\ fst (copy (mkTable ["c"] []) "t" "truncate" 2 Scripted.start) = Ret tt
  /\ fst (copy Scripted.letters "t" "truncate" 2 Scripted.start)
     = Raise (ValueError "Invalid value for `if_exists` argument")
  /\ db_ops (trace (snd (copy Scripted.letters "t" "truncate" 2
                              Scripted.start)))
     = [OpConnect 0 "db.sqlite"; OpClose 0].
Proof.
  intros copy.
  assert (Hi : invalid_if_exists "truncate" = true) by reflexivity.
  split; [exact Hi|]. split.
  - apply (proj1 (@copy_invalid_if_exists _ (Scripted.run [])
                    Scripted.temp_name Scripted.format_columns
                    Scripted.detect_data_type Scripted.db (mkTable ["c"] [])
                    "t" "truncate" 2 Scripted.start Hi)).
    reflexivity.
  - destruct (proj2 (@copy_invalid_if_exists _ (Scripted.run [])
                       Scripted.temp_name Scripted.format_columns
                       Scripted.detect_data_type Scripted.db Scripted.letters
                       "t" "truncate" 2 Scripted.start Hi))
      as (E & T & _).
    + vm_compute. lia.
    + split; [exact E | exact T].
Defined.

(** X12 at the five rows of [letters] appended in chunks of two. *)
Lemma copy_appends_to_existing_table_witness :
  let run := Scripted.run [Scripted.present "t"] in
  exists w',
    copy run Scripted.temp_name Scripted.format_columns
         Scripted.detect_data_type Scripted.db Scripted.letters "t" "append"
         2 Scripted.start = (Ret tt, w')
    /\ disk w' "db.sqlite"
       = flat_map (chunk_statements "t") (Tbl.chunk 2 Scripted.letters)
    /\ List.length (disk w' "db.sqlite") = 3.
Proof.
  intros run.
  pose (w2 := snd (table_exists run Scripted.temp_name Scripted.db "t"
                                (snd (sqlite3_connect (file Scripted.db)
                                                      Scripted.start)))).
  assert (Hn : Tbl.num_rows Scripted.letters <> 0) by (vm_compute; lia).
  assert (Hs : 2 <> 0) by lia.
  assert (He : table_exists run Scripted.temp_name Scripted.db "t"
                            (snd (sqlite3_connect (file Scripted.db)
                                                  Scripted.start))
               = (Ret true, w2))
    by (apply at_result; vm_compute; reflexivity).
  assert (Hi : inserted run "t" (Tbl.chunk 2 Scripted.letters)
                        (disk w2 (file Scripted.db))
               = Some (flat_map (chunk_statements "t")
                                (Tbl.chunk 2 Scripted.letters)))
    by (vm_compute; reflexivity).
  destruct (@copy_appends_to_existing_table _ run Scripted.temp_name
              Scripted.format_columns Scripted.detect_data_type Scripted.db
              Scripted.letters "t" 2 Scripted.start w2 _ Hn Hs He Hi)
    as (w' & E & _ & D).
  exists w'. split; [exact E|]. cbn [file Scripted.db] in D.
  rewrite D. split; reflexivity.
Defined.

(** X15 at a catalog that has the table [t], the engine refusing the
    CREATE TABLE. *)
Lemma copy_drop_is_not_undone_witness :
  let run := Scripted.run
               [Scripted.present "t";
                (Scripted.create_letters,
                 Scripted.Fails (SqliteError "database or disk is full"))] in
  run Scripted.create_letters ["DROP TABLE t"]
  = RunErr (SqliteError "database or disk is full")
  /\ exists w',
      copy run Scripted.temp_name Scripted.format_columns
           Scripted.detect_data_type Scripted.db Scripted.letters "t" "drop"
           2 Scripted.start = (Ret tt, w')
      /\ disk w' "db.sqlite" = ["DROP TABLE t"]
      /\ skipn 5 (db_ops (trace w'))
         = [OpExec 0 "DROP TABLE t"; OpCommit 0;
            OpExec 0 Scripted.create_letters; OpRollback 0; OpClose 0].
Proof.
  intros run.
  pose (w2 := snd (table_exists run Scripted.temp_name Scripted.db "t"
                                (snd (sqlite3_connect (file Scripted.db)
                                                      Scripted.start)))).
  assert (Hn : Tbl.num_rows Scripted.letters <> 0) by (vm_compute; lia).
  assert (He : table_exists run Scripted.temp_name Scripted.db "t"
                            (snd (sqlite3_connect (file Scripted.db)
                                                  Scripted.start))
               = (Ret true, w2))
    by (apply at_result; vm_compute; reflexivity).
  assert (Hd : run_stmts run (statements_of (drop_sql "t"))
                         (disk w2 (file Scripted.db)) (None, [])
               = (["DROP TABLE t"], Ret (None, [])))
    by (vm_compute; reflexivity).
  assert (Hc : create_statement Scripted.format_columns
                 Scripted.detect_data_type Scripted.letters "t"
               = (Scripted.create_letters ++ ";", Scripted.letters))
    by reflexivity.
  assert (Hst : statements_of (Scripted.create_letters ++ ";")
                = [Scripted.create_letters]) by (vm_compute; reflexivity).
  assert (Hr : run Scripted.create_letters ["DROP TABLE t"]
               = RunErr (SqliteError "database or disk is full"))
    by reflexivity.
  split; [exact Hr|].
  destruct (@copy_drop_is_not_undone _ run Scripted.temp_name
              Scripted.format_columns Scripted.detect_data_type Scripted.db
              Scripted.letters Scripted.letters "t"
              (Scripted.create_letters ++ ";") Scripted.create_letters []
              2 Scripted.start w2 ["DROP TABLE t"] (None, [])
              (SqliteError "database or disk is full")
              Hn He Hd Hc Hst Hr) as (w' & E & D & T).
  exists w'. split; [exact E|]. split; [exact D|].
  rewrite T. vm_compute. reflexivity.
Defined.

(** X16 at two instances bound to one file: the second reads what the
    first wrote. *)
Lemma query_sees_what_query_committed_witness :
  let run := Scripted.run [] in
  let a := Scripted.db in
  let b := mkSQLite "db.sqlite" in
  let w1 := snd (query run Scripted.temp_name a "CREATE TABLE t (c)" None
                       Scripted.start) in
  file a = file b
  /\ disk w1 "db.sqlite" = ["CREATE TABLE t (c)"]
  /\ disk (snd (query run Scripted.temp_name b "INSERT INTO t VALUES (1)"
                      None w1)) "db.sqlite"
     = ["CREATE TABLE t (c)"; "INSERT INTO t VALUES (1)"].
Proof.
  intros run a b w1.
  assert (Hf : file a = file b) by reflexivity.
  split; [exact Hf|].
  destruct (@query_sees_what_query_committed _ run Scripted.temp_name a b
              "CREATE TABLE t (c)" "INSERT INTO t VALUES (1)" None None
              Scripted.start Hf) as (D1 & _ & D2).
  split; [exact D1 | exact D2].
Defined.

(** X17 at [ragged] in chunks of one row: the first row is inserted, the
    second cannot be rendered. *)
Lemma copy_raises_index_error_witness :
  let run := Scripted.run [Scripted.absent "t"] in
  _insert_statement (mkTable ["c"] [[]]) "t"
  = Raise (IndexError "tuple index out of range")
  /\ exists w',
      copy run Scripted.temp_name Scripted.format_columns
           Scripted.detect_data_type Scripted.db Scripted.ragged "t" "fail" 1
           Scripted.start
      = (Raise (IndexError "tuple index out of range"), w')
      /\ disk w' "db.sqlite"
         = (statements_of
              (fst (create_statement Scripted.format_columns
                      Scripted.detect_data_type Scripted.ragged "t"))
              ++ chunk_statements "t" (mkTable ["c"] [[VInt 1]]))%list
      /\ List.length (disk w' "db.sqlite") = 2.
Proof.
  intros run.
  pose (w2 := snd (prepare run Scripted.temp_name Scripted.format_columns
                           Scripted.detect_data_type Scripted.db 0
                           Scripted.ragged "t" "fail"
                           (snd (sqlite3_connect (file Scripted.db)
                                                 Scripted.start)))).
  assert (Hn : Tbl.num_rows Scripted.ragged <> 0) by (vm_compute; lia).
  assert (Hs : 1 <> 0) by lia.
  assert (Hp : prepare run Scripted.temp_name Scripted.format_columns
                       Scripted.detect_data_type Scripted.db
                       (List.length (conns Scripted.start))
                       Scripted.ragged "t" "fail"
                       (snd (sqlite3_connect (file Scripted.db)
                                             Scripted.start))
               = (Ret Scripted.ragged, w2))
    by (apply at_result; vm_compute; reflexivity).
  assert (Hch : Tbl.chunk 1 Scripted.ragged
                = ([mkTable ["c"] [[VInt 1]]] ++ mkTable ["c"] [[]] :: [])%list)
    by reflexivity.
  assert (Ht : _insert_statement (mkTable ["c"] [[]]) "t"
               = Raise (IndexError "tuple index out of range"))
    by reflexivity.
  split; [exact Ht|].
  eassert (Hi : inserted run "t" [mkTable ["c"] [[VInt 1]]]
                         (disk w2 (file Scripted.db)) = Some _)
    by (vm_compute; reflexivity).
  destruct (@copy_raises_index_error _ run Scripted.temp_name
              Scripted.format_columns Scripted.detect_data_type Scripted.db
              Scripted.ragged Scripted.ragged "t" "fail" 1 _ _ _
              Scripted.start w2 _ _ Hn Hs Hp Hch Hi Ht) as (w' & E & D & _).
  exists w'. split; [exact E|]. cbn [file Scripted.db] in D.
  rewrite D. split; vm_compute; reflexivity.
Defined.
